(** * ember-cli-content-security-policy: the policy merge of [index.js]

    A shallow embedding of [index.js]: the JavaScript values a policy
    object can hold, a store with the objects and arrays the addon shares
    by reference, the functions [unsupportedDirectives], [appendSourceList]
    and [allowLiveReload], and the two hooks that use them, the request
    handler installed by [serverMiddleware] and [contentFor]. *)

From Stdlib Require Import String Ascii ZArith NArith List Lia DecimalString.
From stdpp Require Import base option list gmap strings fin_maps.

(** ** Strings: [String.prototype.split(' ')] and [Array.prototype.join] *)

Module Str.

Definition space : ascii := " "%char.

(** [s.split(' ')]: cut at every single space; the result always has at
    least one piece, and two spaces in a row give an empty piece. *)
Fixpoint split (s : string) : list string :=
  match s with
  | EmptyString => [EmptyString]
  | String c r =>
      if Ascii.eqb c space then EmptyString :: split r
      else match split r with
           | [] => [String c EmptyString]
           | w :: ws => String c w :: ws
           end
  end.

(** [a.join(sep)]. *)
Fixpoint join (sep : string) (a : list string) : string :=
  match a with
  | [] => EmptyString
  | [x] => x
  | x :: (_ :: _) as r => x +:+ sep +:+ join sep r
  end.

(** [String(n)] for a non-negative integer [n]. *)
Definition of_N (n : N) : string := NilZero.string_of_uint (N.to_uint n).

(** [s.indexOf(sub) !== -1] *)
Fixpoint includes (sub s : string) : bool :=
  String.prefix sub s ||
  match s with
  | EmptyString => false
  | String _ r => includes sub r
  end.

(** The double quote, as a one-character string. *)
Definition dquote : string := String "034"%char EmptyString.

(** Whether the first character is a decimal digit.  A key that does not
    start with one is not integer-like: when it is new on an object it is
    enumerated after every key the object has. *)
Definition starts_with_digit (s : string) : bool :=
  match s with
  | EmptyString => false
  | String c _ => (48 <=? nat_of_ascii c) && (nat_of_ascii c <=? 57)
  end.

End Str.

(** ** Values, objects and the store *)

Abbreviation loc := nat (only parsing).

(** The values a property of a policy object can hold.  Arrays are
    references into the store: two properties can hold the same array.
    Numbers are integers ([NaN] and fractions are left out); [VObject]
    stands for any object that is not an array. *)
Inductive value :=
| VUndefined
| VNull
| VBool (b : bool)
| VNumber (z : Z)
| VString (s : string)
| VArray (l : loc)
| VObject.

(** JavaScript truthiness. *)
Definition truthy (v : value) : bool :=
  match v with
  | VUndefined | VNull => false
  | VBool b => b
  | VNumber z => negb (z =? 0)%Z
  | VString s => negb (String.eqb s "")
  | VArray _ | VObject => true
  end.

Definition is_string (v : value) : bool :=
  match v with VString _ => true | _ => false end.
Definition is_null (v : value) : bool :=
  match v with VNull => true | _ => false end.
Definition is_undefined (v : value) : bool :=
  match v with VUndefined => true | _ => false end.
Definition isArray (v : value) : bool :=
  match v with VArray _ => true | _ => false end.

(** An object: its own properties in enumeration order, keys unique.
    Directive names are taken not to be members of [Object.prototype].
    Enumeration order is insertion order for keys that are not
    integer-like; a statement on the order of keys after a write carries
    that as a hypothesis on the key written ([Str.starts_with_digit]). *)
Definition object := list (string * value).

Module Obj.

Fixpoint lookup (o : object) (k : string) : option value :=
  match o with
  | [] => None
  | (k', v) :: r => if String.eqb k' k then Some v else lookup r k
  end.

(** [o[k]] *)
Definition get (o : object) (k : string) : value :=
  match lookup o k with Some v => v | None => VUndefined end.

(** [k in o] *)
Definition has (o : object) (k : string) : bool :=
  match lookup o k with Some _ => true | None => false end.

(** [o[k] = v]: an existing key keeps its place, a new key goes last, as
    JavaScript does for a key that is not integer-like. *)
Fixpoint set (o : object) (k : string) (v : value) : object :=
  match o with
  | [] => [(k, v)]
  | (k', v') :: r =>
      if String.eqb k' k then (k', v) :: r else (k', v') :: set r k v
  end.

End Obj.

(** The store: arrays and objects by reference, the lines written with
    [console.log] and the calls of [ui.writeWarnLine] (message and test),
    both oldest first. *)
Record store := Store {
  arrays : gmap loc (list string);
  objects : gmap loc object;
  console : list string;
  ui : list (string * bool)
}.

Definition set_arrays (f : gmap loc (list string) -> gmap loc (list string))
    (h : store) : store :=
  Store (f (arrays h)) (objects h) (console h) (ui h).
Definition set_objects (f : gmap loc object -> gmap loc object)
    (h : store) : store :=
  Store (arrays h) (f (objects h)) (console h) (ui h).
Definition set_console (f : list string -> list string) (h : store) : store :=
  Store (arrays h) (objects h) (f (console h)) (ui h).
Definition set_ui (f : list (string * bool) -> list (string * bool))
    (h : store) : store :=
  Store (arrays h) (objects h) (console h) (f (ui h)).

(** ** Computations that read and write the store and can throw *)

Inductive error :=
| UnknownSourceListValue   (* [new Error('Unknown source list value')] *)
| TypeError                (* a method missing on the receiver *)
| BadReference.            (* a reference to nothing in the store *)

Inductive outcome (A : Type) :=
| Normal (a : A)
| Thrown (e : error).
Arguments Normal {A} a.
Arguments Thrown {A} e.

Definition M (A : Type) : Type := store -> outcome A * store.

#[global] Instance M_ret : MRet M := fun A a h => (Normal a, h).
#[global] Instance M_bind : MBind M := fun A B k m h =>
  match m h with
  | (Normal a, h') => k a h'
  | (Thrown e, h') => (Thrown e, h')
  end.
#[global] Instance M_fmap : FMap M := fun A B f m h =>
  match m h with
  | (Normal a, h') => (Normal (f a), h')
  | (Thrown e, h') => (Thrown e, h')
  end.

Definition throw {A} (e : error) : M A := fun h => (Thrown e, h).

Definition newArray (a : list string) : M loc := fun h =>
  let l := fresh (dom (arrays h)) in
  (Normal l, set_arrays (insert l a) h).

Definition readArray (l : loc) : M (list string) := fun h =>
  match arrays h !! l with
  | Some a => (Normal a, h)
  | None => (Thrown BadReference, h)
  end.

Definition getArrays : M (gmap loc (list string)) := fun h =>
  (Normal (arrays h), h).

Definition writeArray (l : loc) (a : list string) : M unit := fun h =>
  (Normal tt, set_arrays (insert l a) h).

Definition newObject (o : object) : M loc := fun h =>
  let p := fresh (dom (objects h)) in
  (Normal p, set_objects (insert p o) h).

Definition readObject (p : loc) : M object := fun h =>
  match objects h !! p with
  | Some o => (Normal o, h)
  | None => (Thrown BadReference, h)
  end.

Definition writeObject (p : loc) (o : object) : M unit := fun h =>
  (Normal tt, set_objects (insert p o) h).

(** [p[k]] *)
Definition getProperty (p : loc) (k : string) : M value :=
  o ← readObject p; mret (Obj.get o k).

(** [k in p] *)
Definition hasProperty (p : loc) (k : string) : M bool :=
  o ← readObject p; mret (Obj.has o k).

(** [p[k] = v] *)
Definition setProperty (p : loc) (k : string) (v : value) : M unit :=
  o ← readObject p; writeObject p (Obj.set o k v).

(** [console.log(msg)] *)
Definition console_log (msg : string) : M unit := fun h =>
  (Normal tt, set_console (fun c => c ++ [msg]) h).

(** [ui.writeWarnLine(msg, test)]: the call is recorded, what the host
    prints for it is the host's business. *)
Definition writeWarnLine (msg : string) (test : bool) : M unit := fun h =>
  (Normal tt, set_ui (fun c => c ++ [(msg, test)]) h).

(** [a.forEach(f)] *)
Fixpoint forEach {A} (a : list A) (f : A -> M unit) : M unit :=
  match a with
  | [] => mret tt
  | x :: r => f x;; forEach r f
  end.

(** *** Methods of the values *)

(** [v.length === 0] *)
Definition length_is_zero (v : value) : M bool :=
  match v with
  | VArray l => a ← readArray l; mret (Nat.eqb (length a) 0)
  | VString s => mret (String.eqb s "")
  | VUndefined | VNull => throw TypeError
  | _ => mret false
  end.

(** [v.slice()]: a fresh copy of an array; a string gives itself; nothing
    else has the method. *)
Definition slice (v : value) : M value :=
  match v with
  | VArray l => a ← readArray l; VArray <$> newArray a
  | VString s => mret (VString s)
  | _ => throw TypeError
  end.

(** [v.push(x)]: only arrays have the method. *)
Definition push (v : value) (x : string) : M unit :=
  match v with
  | VArray l => a ← readArray l; writeArray l (a ++ [x])
  | _ => throw TypeError
  end.

(** [v.join(' ')] *)
Definition join (v : value) : M string :=
  match v with
  | VArray l => a ← readArray l; mret (Str.join " " a)
  | _ => throw TypeError
  end.

(** ** Constants of [index.js] *)

Definition CSP_SELF := "'self'".
Definition CSP_NONE := "'none'".
Definition REPORT_PATH := "/csp-report".
Definition CSP_HEADER := "Content-Security-Policy".
Definition CSP_HEADER_REPORT_ONLY := "Content-Security-Policy-Report-Only".
Definition CSP_REPORT_URI := "report-uri".
Definition CSP_FRAME_ANCESTORS := "frame-ancestors".
Definition CSP_SANDBOX := "sandbox".
Definition META_UNSUPPORTED_DIRECTIVES : list string :=
  [CSP_REPORT_URI; CSP_FRAME_ANCESTORS; CSP_SANDBOX].
Definition DELIVERY_HEADER := "header".
Definition DELIVERY_META := "meta".
Definition STATIC_TEST_NONCE := "abcdefg".

(** ** [unsupportedDirectives], [appendSourceList], [allowLiveReload] *)

(** [policyObject && (name in policyObject)] is decided on the object
    itself: an object reference is always truthy. *)
Definition unsupportedDirectives (policyObject : loc) : M (list string) :=
  o ← readObject policyObject;
  mret (List.filter (fun name => Obj.has o name) META_UNSUPPORTED_DIRECTIVES).

Definition appendSourceList (policyObject : loc) (name sourceList : string)
    : M unit :=
  oldValue ← getProperty policyObject name;
  (* cast string syntax into array *)
  oldValue ← (if truthy oldValue && is_string oldValue
              then match oldValue with
                   | VString s => VArray <$> newArray (Str.split s)
                   | _ => mret oldValue
                   end
              else mret oldValue);
  (if negb (is_null oldValue) && negb (is_undefined oldValue)
      && negb (isArray oldValue)
   then throw UnknownSourceListValue else mret tt);;
  empty ← (if negb (truthy oldValue) then mret true
           else length_is_zero oldValue);
  oldSourceList ← (if empty : bool
                   then (* copy default-src *)
                     d ← getProperty policyObject "default-src";
                     if truthy d then mret d else VArray <$> newArray []
                   else mret oldValue);
  (* do not mutate existing source list *)
  newSourceList ← slice oldSourceList;
  push newSourceList sourceList;;
  s ← join newSourceList;
  setProperty policyObject name (VString s).

(** The live-reload object as the code passes it around: [hostname] is
    what [allowLiveReload] reads, [host] is what [serverMiddleware]
    writes.  [None] is a property that is not there. *)
Record liveReloadConfig := LiveReload {
  lr_hostname : option string;
  lr_host : option string;
  lr_port : N;
  lr_ssl : bool
}.

(** [['localhost', '0.0.0.0', hostname].filter(Boolean)] *)
Definition liveReloadHosts (hostname : option string) : list string :=
  "localhost" :: "0.0.0.0" ::
  match hostname with
  | Some h => if String.eqb h "" then [] else [h]
  | None => []
  end.

Definition allowLiveReload (policyObject : loc) (cfg : liveReloadConfig)
    : M unit :=
  forEach (liveReloadHosts (lr_hostname cfg)) (fun hostname =>
    let protocol := if lr_ssl cfg then "wss://" else "ws://" in
    let host := hostname +:+ ":" +:+ Str.of_N (lr_port cfg) in
    appendSourceList policyObject "connect-src" (protocol +:+ host);;
    appendSourceList policyObject "script-src" host).

(** ** The addon instance and the two hooks *)

(** [this._config]; [policy] is [None] when it is [null] or [undefined]. *)
Record config := Config {
  delivery : list string;
  enabled : bool;
  policy : option loc;
  reportOnly : bool
}.

(** The [options] of [serverMiddleware]; [None] is a host that is not set. *)
Record options := Options {
  opt_liveReload : bool;
  opt_liveReloadHost : option string;
  opt_liveReloadPort : N;
  opt_ssl : bool;
  opt_host : option string;
  opt_port : N
}.

Record addon := Addon {
  _config : config;
  _liveReload : option liveReloadConfig
}.

(** The headers of a response: [removeHeader] deletes, [setHeader] inserts.
    Names are kept as the code writes them. *)
Abbreviation response := (gmap string string) (only parsing).

(** [Object.assign({}, src)]: a new object with the properties of [src],
    holding the very same values (arrays are shared with [src]). *)
Definition Object_assign (src : option loc) : M loc :=
  match src with
  | None => newObject []
  | Some p => o ← readObject p; newObject o
  end.

(** The string the test nonce is appended as. *)
Definition nonceSource : string := "'nonce-" +:+ STATIC_TEST_NONCE +:+ "'".

(** [if (this._liveReload) { allowLiveReload(policyObject, this._liveReload); }] *)
Definition liveReloadStep (this : addon) (policyObject : loc) : M unit :=
  match _liveReload this with
  | Some lr => allowLiveReload policyObject lr
  | None => mret tt
  end.

(** [serverMiddleware], lines 92 to 98: what it leaves in [this]. *)
Definition serverMiddleware (this : addon) (opts : options) : addon :=
  if opt_liveReload opts
  then Addon (_config this)
         (Some (LiveReload None (opt_liveReloadHost opts)
                  (opt_liveReloadPort opts) (opt_ssl opts)))
  else this.

Definition headerName (this : addon) : string :=
  if reportOnly (_config this) then CSP_HEADER_REPORT_ONLY else CSP_HEADER.

(** [options.host || 'localhost'], the protocol and the port. *)
Definition ecOrigin (opts : options) : string :=
  let ecHost := match opt_host opts with
                | Some h => if String.eqb h "" then "localhost" else h
                | None => "localhost"
                end in
  let ecProtocol := if opt_ssl opts then "https://" else "http://" in
  ecProtocol +:+ ecHost +:+ ":" +:+ Str.of_N (opt_port opts).

(** Lines 121 to 127 of the request handler. *)
Definition reportEndpoint (header : string) (opts : options)
    (policyObject : loc) : M unit :=
  if Str.includes "Report-Only" header
  then has ← hasProperty policyObject "report-uri";
       if negb has
       then appendSourceList policyObject "connect-src" (ecOrigin opts);;
            setProperty policyObject "report-uri"
              (VString (ecOrigin opts +:+ REPORT_PATH))
       else mret tt
  else mret tt.

(** Lines 108 to 127 of the request handler: the policy object that is
    serialized into the header. *)
Definition headerPolicy (this : addon) (opts : options) : M loc :=
  (* clone policy object cause config should not be mutated *)
  policyObject ← Object_assign (policy (_config this));
  (* [if (policyObject)]: an object is always truthy *)
  appendSourceList policyObject "script-src" nonceSource;;
  liveReloadStep this policyObject;;
  reportEndpoint (headerName this) opts policyObject;;
  mret policyObject.

(** Lines 172 to 180 of [contentFor]. *)
Definition metaPolicy (this : addon) (environment : string) : M loc :=
  policyObject ← Object_assign (policy (_config this));
  (if String.eqb environment "test"
   then appendSourceList policyObject "script-src" nonceSource
   else mret tt);;
  liveReloadStep this policyObject;;
  mret policyObject.

Definition unsupportedWarning (name : string) : string :=
  "CSP delivered via meta does not support `" +:+ name +:+ "`, " +:+
  "per the W3C recommendation.".

Definition reportOnlyMetaWarning : string :=
  "Content Security Policy does not support report only mode if delivered via meta element. " +:+
  "Either set `ENV['ember-cli-content-security-policy'].reportOnly` to `false` or remove `'meta'` " +:+
  "from `ENV['ember-cli-content-security-policy'].delivery`.".

Definition noPolicyWarning : string :=
  "CSP via meta tag enabled but no policy exist.".

Definition metaTag (policyString : string) : string :=
  "<meta http-equiv=" +:+ Str.dquote +:+ CSP_HEADER +:+ Str.dquote +:+
  " content=" +:+ Str.dquote +:+ policyString +:+ Str.dquote +:+ ">".

Section Hooks.

(** [buildPolicyString] of [lib/utils] is not among the sources: the
    hooks take it as a function that reads a policy object and the arrays
    it refers to and gives a string, the empty one being the falsy
    result. *)
Variable buildPolicyString : gmap loc (list string) -> object -> string.

Definition serialize (policyObject : loc) : M string :=
  o ← readObject policyObject;
  arrs ← getArrays;
  mret (buildPolicyString arrs o).

(** The request handler that [serverMiddleware] installs.  Every normal
    return has called [next()]; the result is the response as the next
    handler finds it. *)
Definition serverMiddleware_request (this : addon) (opts : options)
    (res : response) : M response :=
  if negb (enabled (_config this)) then mret res
  else
    let header := headerName this in
    policyObject ← headerPolicy this opts;
    headerValue ← serialize policyObject;
    if String.eqb headerValue "" then mret res
    else
      (* clear existing headers before setting ours *)
      let res := delete CSP_HEADER res in
      let res := delete CSP_HEADER_REPORT_ONLY res in
      let res := <[header := headerValue]> res in
      (* for Internet Explorer 11 and below *)
      let res := delete ("X-" +:+ CSP_HEADER) res in
      let res := delete ("X-" +:+ CSP_HEADER_REPORT_ONLY) res in
      let res := <["X-" +:+ header := headerValue]> res in
      mret res.

(** [contentFor(type, appConfig, existingContent)] with
    [environment = appConfig.environment]; [None] is [undefined].  For the
    type [test-body-footer] the code also rewrites the entries of
    [existingContent] (lines 199 to 206), an array that is not part of the
    store: of such a call the definition gives the returned value and what
    happens to the policy, not what happens to [existingContent]. *)
Definition contentFor (this : addon) (type environment : string)
    : M (option string) :=
  if negb (enabled (_config this)) then mret None
  else if String.eqb type "head"
          && existsb (String.eqb DELIVERY_META) (delivery (_config this))
  then
    writeWarnLine reportOnlyMetaWarning (reportOnly (_config this));;
    policyObject ← metaPolicy this environment;
    policyString ← serialize policyObject;
    names ← unsupportedDirectives policyObject;
    forEach names (fun name => console_log (unsupportedWarning name));;
    if String.eqb policyString ""
    then console_log noPolicyWarning;; mret None
    else mret (Some (metaTag policyString))
  else mret None.

End Hooks.

(** ** [calculateConfig] *)

(** [config/environment.js] as [calculateConfig] reads it: the legacy
    policy object ([None] when it is not set), whether
    [contentSecurityPolicyMeta] is truthy, and the legacy header name
    ([None] when it is not set). *)
Record runConfig := RunConfig {
  contentSecurityPolicy : option loc;
  contentSecurityPolicyMeta : bool;
  contentSecurityPolicyHeader : option string
}.

(** The addon's own configuration: the keys [Object.assign(config,
    ownConfig)] can bring.  [None] is a key that is not there. *)
Record ownConfig := OwnConfig {
  own_delivery : option (list string);
  own_enabled : option bool;
  own_policy : option (option loc);
  own_reportOnly : option bool
}.

Definition deprecationWarning : string :=
  "Configuring ember-cli-content-security-policy using `contentSecurityPolicy`, " +:+
  "`contentSecurityPolicyHeader` and `contentSecurityPolicyMeta` keys in `config/environment.js` " +:+
  "is deprecate and will be removed in v2.0.0. ember-cli-content-security-policy is now configured " +:+
  "using `ember-cli-build.js`. Please find detailed information about new configuration options " +:+
  "in addon documentation at https://github.com/rwjblue/ember-cli-content-security-policy/blob/master/DEPRECATIONS.md.".

(** The default policy of lines 240 to 248, each directive with the
    elements of its array literal. *)
Definition defaultPolicy : list (string * list string) :=
  [("default-src", [CSP_NONE]);
   ("script-src", [CSP_SELF]);
   ("font-src", [CSP_SELF]);
   ("connect-src", [CSP_SELF]);
   ("img-src", [CSP_SELF]);
   ("style-src", [CSP_SELF]);
   ("media-src", [CSP_SELF])].

(** The properties of an object literal whose values are array literals:
    one new array for each, in order. *)
Fixpoint arrayLiterals (props : list (string * list string)) : M object :=
  match props with
  | [] => mret []
  | (k, a) :: r =>
      l ← newArray a;
      o ← arrayLiterals r;
      mret ((k, VArray l) :: o)
  end.

(** [Object.assign(target, src)]: every property of [src], in order, is
    assigned on [target]. *)
Definition Object_assign_into (target src : loc) : M unit :=
  s ← readObject src;
  forEach s (fun kv => setProperty target kv.1 kv.2).

(** [!!v] for a string that may not be there. *)
Definition truthy_string (v : option string) : bool :=
  match v with
  | Some s => negb (String.eqb s "")
  | None => false
  end.

Definition calculateConfig (environment : string) (ownConfig : ownConfig)
    (runConfig : runConfig) : M config :=
  props ← arrayLiterals defaultPolicy;
  policy ← newObject props;
  (* testem requires frame-src to run *)
  (if String.eqb environment "test"
   then setProperty policy "frame-src" (VString CSP_SELF)
   else mret tt);;
  writeWarnLine deprecationWarning
    (negb (bool_decide (is_Some (contentSecurityPolicy runConfig)))
     || negb (truthy_string (contentSecurityPolicyHeader runConfig))
     || negb (contentSecurityPolicyMeta runConfig));;
  (* support legacy configuration options *)
  (match contentSecurityPolicy runConfig with
   | Some legacy => (* policy object is merged not replaced *)
       Object_assign_into policy legacy
   | None => mret tt
   end);;
  let delivery :=
    if contentSecurityPolicyMeta runConfig then [DELIVERY_META]
    else [DELIVERY_HEADER] in
  let reportOnly :=
    match contentSecurityPolicyHeader runConfig with
    | Some header =>
        if String.eqb header "" then true
        else negb (String.eqb header CSP_HEADER)
    | None => true
    end in
  (* apply configuration *)
  mret (Config (default delivery (own_delivery ownConfig))
               (default true (own_enabled ownConfig))
               (default (Some policy) (own_policy ownConfig))
               (default reportOnly (own_reportOnly ownConfig))).

(** Modelled from the spec: the string form of a directive value in
    [buildPolicyString] of [lib/utils], which is not among the sources.  It
    is the raw string, or the sequence joined by single spaces; a value that
    is neither has no string form. *)
Definition valueString (arrs : gmap loc (list string)) (v : value) : string :=
  match v with
  | VString s => s
  | VArray l => Str.join " " (default [] (arrs !! l))
  | _ => ""
  end.

(** Modelled from the spec: the clauses of [buildPolicyString] of
    [lib/utils], which is not among the sources.  Each directive with a
    non-empty string form gives [<directive> <value>], in insertion order. *)
Definition policyClauses (arrs : gmap loc (list string)) (o : object)
    : list string :=
  flat_map (fun '(k, v) =>
              if String.eqb (valueString arrs v) "" then []
              else [k +:+ " " +:+ valueString arrs v]) o.

(** Modelled from the spec: [buildPolicyString] of [lib/utils], the
    serializer, which is not among the sources.  The clauses are joined with
    [; ]; no clause at all gives the empty string. *)
Definition buildPolicyString_spec (arrs : gmap loc (list string)) (o : object)
    : string :=
  Str.join "; " (policyClauses arrs o).

(** ** What [appendSourceList] computes, as pure functions *)

(** Lines 49 to 58: the sequence [oldValue] stands for once the string
    syntax is cast and the value is checked; [null] and [undefined] pass
    the check and count as empty on line 60. *)
Definition normalize (arrs : gmap loc (list string)) (v : value)
    : outcome (list string) :=
  match v with
  | VUndefined | VNull => Normal []
  | VString s =>
      if String.eqb s "" then Thrown UnknownSourceListValue
      else Normal (Str.split s)
  | VArray l =>
      match arrs !! l with
      | Some a => Normal a
      | None => Thrown BadReference
      end
  | _ => Thrown UnknownSourceListValue
  end.

(** Lines 62, 68 and 69: [policyObject['default-src'] || []], read as it
    is stored, then sliced and pushed to. *)
Definition fallbackBase (arrs : gmap loc (list string)) (d : value)
    : outcome (list string) :=
  match d with
  | VArray l =>
      match arrs !! l with
      | Some a => Normal a
      | None => Thrown BadReference
      end
  | _ => if truthy d then Thrown TypeError else Normal []
  end.

(** Lines 60 to 65: the list the new source is appended to. *)
Definition sourceBase (arrs : gmap loc (list string)) (o : object)
    (name : string) : outcome (list string) :=
  match normalize arrs (Obj.get o name) with
  | Normal [] => fallbackBase arrs (Obj.get o "default-src")
  | r => r
  end.

(** Every array of [h] is still there, with the same elements, in [h']. *)
Definition arrays_preserved (h h' : store) : Prop :=
  forall l a, arrays h !! l = Some a -> arrays h' !! l = Some a.

(** Every object of [h] is still there, with the same properties, in [h']. *)
Definition objects_preserved (h h' : store) : Prop :=
  forall q o, objects h !! q = Some o -> objects h' !! q = Some o.

(** ** Relations between stores *)

(** From [h] to [h']: the object at [p] has become [o'], every other
    object, the console and the warnings are as they were, and every array
    of [h] is untouched. *)
Definition updates (p : loc) (o' : object) (h h' : store) : Prop :=
  arrays_preserved h h' /\ console h' = console h /\ ui h' = ui h /\
  objects h' = <[p := o']> (objects h).

(** [m] takes every store to one related to it by [R], whatever the
    outcome. *)
Definition preserves {A} (R : store -> store -> Prop) (m : M A) : Prop :=
  forall h, R h (snd (m h)).

(** The arrays of [h] and its objects other than [p] are untouched. *)
Definition frame (p : loc) (h h' : store) : Prop :=
  arrays_preserved h h' /\
  forall q o, q <> p -> objects h !! q = Some o -> objects h' !! q = Some o.

(** The arrays and the objects of [h] are all untouched. *)
Definition preserved (h h' : store) : Prop :=
  arrays_preserved h h' /\ objects_preserved h h'.

(** A computation that leaves arrays and objects as they are. *)
Definition heap_unchanged {A} (m : M A) : Prop :=
  forall h, arrays (snd (m h)) = arrays h /\ objects (snd (m h)) = objects h.

(** ** The objects the hooks build *)

(** What [Object.assign({}, src)] copies: the properties of [src], none
    when [src] is [null] or [undefined]. *)
Definition sourceObject (h : store) (src : option loc) : option object :=
  match src with
  | None => Some []
  | Some p0 => objects h !! p0
  end.

(** The sources one candidate host gives to [connect-src] and [script-src]. *)
Definition liveReloadConnect (cfg : liveReloadConfig) (hostname : string)
    : string :=
  (if lr_ssl cfg then "wss://" else "ws://") +:+
  (hostname +:+ ":" +:+ Str.of_N (lr_port cfg)).
Definition liveReloadScript (cfg : liveReloadConfig) (hostname : string)
    : string :=
  hostname +:+ ":" +:+ Str.of_N (lr_port cfg).

(** The sources the live-reload step appends, none without live reload. *)
Definition liveReloadConnects (this : addon) : list string :=
  match _liveReload this with
  | Some lr => map (liveReloadConnect lr) (liveReloadHosts (lr_hostname lr))
  | None => []
  end.
Definition liveReloadScripts (this : addon) : list string :=
  match _liveReload this with
  | Some lr => map (liveReloadScript lr) (liveReloadHosts (lr_hostname lr))
  | None => []
  end.

(** The object after the live-reload step, [c] and [s] being the lists
    [connect-src] and [script-src] stand for before it. *)
Definition liveReloadObject (this : addon) (o : object) (c s : list string)
    : object :=
  match _liveReload this with
  | Some _ =>
      Obj.set
        (Obj.set o "connect-src"
           (VString (Str.join " " (c ++ liveReloadConnects this))))
        "script-src" (VString (Str.join " " (s ++ liveReloadScripts this)))
  | None => o
  end.

(** The object after lines 121 to 127, [c] being the list [connect-src]
    stands for before them. *)
Definition reportObject (this : addon) (opts : options) (o : object)
    (c : list string) : object :=
  if reportOnly (_config this) && negb (Obj.has o "report-uri")
  then Obj.set
         (Obj.set o "connect-src"
            (VString (Str.join " " (c ++ [ecOrigin opts]))))
         "report-uri" (VString (ecOrigin opts +:+ REPORT_PATH))
  else o.

(** The object the request handler serializes, [o0] being the configured
    policy and [c] and [s] the lists its [connect-src] and [script-src]
    stand for. *)
Definition headerObject (this : addon) (opts : options) (o0 : object)
    (c s : list string) : object :=
  reportObject this opts
    (liveReloadObject this
       (Obj.set o0 "script-src"
          (VString (Str.join " " (s ++ [nonceSource]))))
       c (s ++ [nonceSource]))
    (c ++ liveReloadConnects this).

(** The object [contentFor] serializes. *)
Definition metaObject (this : addon) (environment : string) (o0 : object)
    (c s : list string) : object :=
  if String.eqb environment "test"
  then liveReloadObject this
         (Obj.set o0 "script-src"
            (VString (Str.join " " (s ++ [nonceSource]))))
         c (s ++ [nonceSource])
  else liveReloadObject this o0 c s.

(** The request handler, started in [h], builds the policy object [o]. *)
Definition headerPolicyBuilds (this : addon) (opts : options) (h : store)
    (o : object) : Prop :=
  exists p h', headerPolicy this opts h = (Normal p, h') /\
               objects h' !! p = Some o.

(** The elements an object literal of array literals gives the key [k],
    if it has that key. *)
Fixpoint literalLookup (props : list (string * list string)) (k : string)
    : option (list string) :=
  match props with
  | [] => None
  | (k', a) :: r => if String.eqb k' k then Some a else literalLookup r k
  end.

(** [o] is what the literal [props] has been allocated as in [arrs]: the
    same keys in the same order, each holding an array with the elements
    written. *)
Definition allocated (arrs : gmap loc (list string))
    (props : list (string * list string)) (o : object) : Prop :=
  Forall2 (fun kv kw => kv.1 = kw.1 /\
             exists l, kw.2 = VArray l /\ arrs !! l = Some kv.2) props o.

(** The target of [Object.assign(target, src)] afterwards. *)
Definition assigned (target src : object) : object :=
  fold_left (fun o kv => Obj.set o kv.1 kv.2) src target.

(** ** Example inputs *)

(** [{"default-src": ["'self'", "a.com"]}] at reference [0]. *)
Definition store_default_array : store :=
  Store {[ 0 := ["'self'"; "a.com"] ]}
        {[ 0 := [("default-src", VArray 0)] ]} [] [].

(** [{"default-src": "'self' a.com"}] at reference [0]. *)
Definition store_default_string : store :=
  Store ∅ {[ 0 := [("default-src", VString "'self' a.com")] ]} [] [].

(** [{"script-src": ["'self'"]}] at reference [0]. *)
Definition store_script_self : store :=
  Store {[ 0 := ["'self'"] ]} {[ 0 := [("script-src", VArray 0)] ]} [] [].

(** [{"connect-src": ["'self'"], "script-src": ["'self'"]}] at reference [0]. *)
Definition store_connect_script : store :=
  Store {[ 0 := ["'self'"]; 1 := ["'self'"] ]}
        {[ 0 := [("connect-src", VArray 0); ("script-src", VArray 1)] ]} [] [].

(** One directive [script-src] holding [v], at reference [0]. *)
Definition store_script (v : value) : store :=
  Store ∅ {[ 0 := [("script-src", v)] ]} [] [].


(** An addon in report-only mode, delivering by header the policy at
    [p0], without live reload. *)
Definition report_only_addon (p0 : loc) : addon :=
  Addon (Config [DELIVERY_HEADER] true (Some p0) true) None.

(** No host set, port [4200], no TLS, no live reload. *)
Definition local_options : options :=
  Options false None 0 false None 4200.

(** An addon delivering by meta tag the policy at [p0]. *)
Definition meta_addon (p0 : loc) (lr : option liveReloadConfig) : addon :=
  Addon (Config [DELIVERY_META] true (Some p0) false) lr.

(** [{"img-src": ["example.com"], "script-src": "'self' cdn.example"}] at
    reference [0], as a legacy policy. *)
Definition store_legacy : store :=
  Store {[ 0 := ["example.com"] ]}
        {[ 0 := [("img-src", VArray 0);
                 ("script-src", VString "'self' cdn.example")] ]} [] [].

(** * Proofs *)

(** ** Strings *)

Module StrFacts.
Import Str.

Lemma split_nonempty s : split s <> [].
Proof.
  destruct s as [|c r]; simpl; [discriminate|].
  destruct (Ascii.eqb c space); [discriminate|].
  destruct (split r); discriminate.
Qed.

Lemma join_cons sep x r :
  r <> [] -> join sep (x :: r) = x +:+ sep +:+ join sep r.
Proof. destruct r; [congruence | reflexivity]. Qed.

Lemma append_cons c s t : String c s +:+ t = String c (s +:+ t).
Proof. reflexivity. Qed.

Lemma append_nil_l s : "" +:+ s = s.
Proof. reflexivity. Qed.

Lemma append_nil_r s : s +:+ "" = s.
Proof. induction s; rewrite ?append_cons; [done | congruence]. Qed.

Lemma append_assoc s t u : (s +:+ t) +:+ u = s +:+ t +:+ u.
Proof. induction s; rewrite ?append_cons; [done | congruence]. Qed.

(** [s.split(' ').join(' ')] is [s]. *)
Lemma join_split s : join " " (split s) = s.
Proof.
  induction s as [|c r IH]; [reflexivity|].
  cbn [split]. destruct (Ascii.eqb_spec c space) as [->|Hc].
  - rewrite join_cons by apply split_nonempty. by rewrite IH.
  - pose proof (split_nonempty r) as Hne.
    destruct (split r) as [|w ws]; [done|].
    destruct ws as [|w' ws].
    + cbn [join] in *. by rewrite IH.
    + rewrite join_cons in * by done.
      rewrite append_cons. by rewrite IH.
Qed.

Lemma join_snoc sep l t :
  l <> [] -> join sep (l ++ [t]) = join sep l +:+ sep +:+ t.
Proof.
  induction l as [|x r IH]; [done|]. intros _.
  destruct r as [|y r]; [reflexivity|].
  change ((x :: y :: r) ++ [t]) with (x :: ((y :: r) ++ [t])).
  rewrite join_cons by (by destruct r).
  rewrite IH by done. rewrite (join_cons sep x (y :: r)) by done.
  by rewrite !append_assoc.
Qed.

(** Pushing onto the split of a string appends to the string. *)
Lemma join_split_snoc s t : join " " (split s ++ [t]) = s +:+ " " +:+ t.
Proof. rewrite join_snoc by apply split_nonempty. by rewrite join_split. Qed.

Lemma split_app s t : split (s +:+ " " +:+ t) = split s ++ split t.
Proof.
  induction s as [|c r IH]; [reflexivity|].
  rewrite append_cons. cbn [split]. rewrite IH.
  destruct (Ascii.eqb c space); [reflexivity|].
  pose proof (split_nonempty r) as Hne.
  destruct (split r); [done | reflexivity].
Qed.

Lemma prefix_app s t : String.prefix s (s +:+ t) = true.
Proof.
  induction s as [|c r IH]; [by destruct t|].
  rewrite append_cons. cbn [String.prefix].
  destruct (ascii_dec c c); [done | congruence].
Qed.

Lemma includes_here sub post : includes sub (sub +:+ post) = true.
Proof.
  destruct (sub +:+ post) eqn:E; cbn [includes];
    by rewrite <- E, prefix_app.
Qed.

Lemma includes_later pre sub u :
  includes sub u = true -> includes sub (pre +:+ u) = true.
Proof.
  intros Hu. induction pre as [|c r IH]; [done|].
  rewrite append_cons. cbn [includes]. rewrite IH. apply orb_true_r.
Qed.

Lemma includes_app sub pre post :
  includes sub (pre +:+ sub +:+ post) = true.
Proof. apply includes_later, includes_here. Qed.

Lemma includes_join sep c l : In c l -> includes c (join sep l) = true.
Proof.
  induction l as [|x r IH]; [done|]. intros [->|Hin].
  - destruct r.
    + cbn [join]. rewrite <- (append_nil_r c) at 2. apply includes_here.
    + rewrite join_cons by done. apply includes_here.
  - rewrite join_cons by (by destruct r).
    apply includes_later, includes_later, IH, Hin.
Qed.

Lemma append_not_empty s c t : s +:+ String c t <> "".
Proof. by destruct s. Qed.

End StrFacts.

(** ** Running the computations *)

Lemma run_bind {A B} (m : M A) (k : A -> M B) h :
  (m ≫= k) h = match m h with
                | (Normal a, h') => k a h'
                | (Thrown e, h') => (Thrown e, h')
                end.
Proof. reflexivity. Qed.

Lemma arrays_preserved_refl h : arrays_preserved h h.
Proof. by intros l a. Qed.

Lemma arrays_preserved_trans h1 h2 h3 :
  arrays_preserved h1 h2 -> arrays_preserved h2 h3 -> arrays_preserved h1 h3.
Proof. intros H12 H23 l a Hl. by apply H23, H12. Qed.

Lemma arrays_preserved_alloc h a :
  arrays_preserved h (set_arrays (insert (fresh (dom (arrays h))) a) h).
Proof.
  intros l b Hl. cbn. rewrite lookup_insert_ne; [done|].
  intros <-. pose proof (is_fresh (dom (arrays h))) as Hf.
  apply Hf, elem_of_dom. eauto.
Qed.

Lemma run_readObject h p o :
  objects h !! p = Some o -> readObject p h = (Normal o, h).
Proof. intros Hp. unfold readObject. by rewrite Hp. Qed.

Lemma run_getProperty h p o k :
  objects h !! p = Some o -> getProperty p k h = (Normal (Obj.get o k), h).
Proof.
  intros Hp. unfold getProperty. by rewrite run_bind, (run_readObject _ _ _ Hp).
Qed.

Lemma run_ret {A} (a : A) h : (mret a : M A) h = (Normal a, h).
Proof. reflexivity. Qed.

Lemma run_throw {A} e h : @throw A e h = (Thrown e, h).
Proof. reflexivity. Qed.

Lemma run_fmap {A B} (f : A -> B) (m : M A) h :
  ((f <$> m) : M B) h = match m h with
                | (Normal a, h') => (Normal (f a), h')
                | (Thrown e, h') => (Thrown e, h')
                end.
Proof. reflexivity. Qed.

Lemma fresh_array_ne h l a :
  arrays h !! l = Some a -> fresh (dom (arrays h)) <> l.
Proof.
  intros Hl <-. apply (is_fresh (dom (arrays h))), elem_of_dom. eauto.
Qed.

Lemma fresh_object_ne h p o :
  objects h !! p = Some o -> fresh (dom (objects h)) <> p.
Proof.
  intros Hl <-. apply (is_fresh (dom (objects h))), elem_of_dom. eauto.
Qed.

Ltac unfold_M :=
  repeat (progress (unfold mbind, M_bind, mret, M_ret, fmap, M_fmap, throw,
                      readObject, readArray, newArray, writeArray,
                      writeObject, getProperty, setProperty, hasProperty,
                      slice, push, join, length_is_zero; cbn)).

(** Lines 68 to 70 on a list that is an array. *)
Lemma run_tail h l base p o name t :
  arrays h !! l = Some base ->
  objects h !! p = Some o ->
  exists h',
    (newSourceList ← slice (VArray l);
     push newSourceList t;;
     s ← join newSourceList;
     setProperty p name (VString s)) h = (Normal tt, h') /\
    arrays_preserved h h' /\ console h' = console h /\ ui h' = ui h /\
    objects h' =
      <[p := Obj.set o name (VString (Str.join " " (base ++ [t])))]>
        (objects h).
Proof.
  intros Hl Hp. unfold_M. rewrite Hl. cbn. rewrite lookup_insert_eq. cbn.
  rewrite lookup_insert_eq. cbn. rewrite Hp. cbn.
  eexists. split; [reflexivity|]. cbn. repeat split.
  intros l' a Hl'. cbn.
  rewrite !lookup_insert_ne by (by eapply fresh_array_ne). done.
Qed.

(** Lines 68 to 70 on a list that is not an array: [push] is missing. *)
Lemma run_tail_not_array h v p name t :
  isArray v = false ->
  (newSourceList ← slice v;
   push newSourceList t;;
   s ← join newSourceList;
   setProperty p name (VString s)) h = (Thrown TypeError, h).
Proof. by destruct v. Qed.

Ltac same_store :=
  cbn; rewrite ?run_tail_not_array by done;
  repeat split; auto using arrays_preserved_refl.

(** Lines 62 and 68 to 70: the append when the directive is empty. *)
Lemma run_fallback h p o name t :
  objects h !! p = Some o ->
  exists h',
    (oldSourceList ← (d ← getProperty p "default-src";
                      if truthy d then mret d else VArray <$> newArray []);
     newSourceList ← slice oldSourceList;
     push newSourceList t;;
     s ← join newSourceList;
     setProperty p name (VString s)) h =
      (match fallbackBase (arrays h) (Obj.get o "default-src") with
       | Normal _ => Normal tt
       | Thrown e => Thrown e
       end, h') /\
    arrays_preserved h h' /\ console h' = console h /\ ui h' = ui h /\
    objects h' =
      match fallbackBase (arrays h) (Obj.get o "default-src") with
      | Normal base =>
          <[p := Obj.set o name (VString (Str.join " " (base ++ [t])))]>
            (objects h)
      | Thrown _ => objects h
      end.
Proof.
  intros Hp. rewrite run_bind, run_bind, (run_getProperty _ _ _ _ Hp).
  assert (Hfalsy : truthy (Obj.get o "default-src") = false ->
    exists h',
      (newSourceList ← slice (VArray (fresh (dom (arrays h))));
       push newSourceList t;;
       s ← join newSourceList;
       setProperty p name (VString s))
        (set_arrays (insert (fresh (dom (arrays h))) []) h) = (Normal tt, h') /\
      arrays_preserved h h' /\ console h' = console h /\ ui h' = ui h /\
      objects h' = <[p := Obj.set o name (VString (Str.join " " ([] ++ [t])))]>
                     (objects h)).
  { intros _.
    destruct (run_tail (set_arrays (insert (fresh (dom (arrays h))) []) h)
                (fresh (dom (arrays h))) [] p o name t)
      as (h' & Hrun & Harr & Hc & Hu & Hobj); [apply lookup_insert_eq|done|].
    exists h'. repeat split; try done.
    eapply arrays_preserved_trans; [apply arrays_preserved_alloc | done]. }
  destruct (Obj.get o "default-src") as [| |b|z|s|l|] eqn:Hd;
    cbn [truthy fallbackBase] in *.
  - rewrite run_fmap. by apply Hfalsy.
  - rewrite run_fmap. by apply Hfalsy.
  - destruct b.
    + exists h. rewrite run_ret. by same_store.
    + rewrite run_fmap. by apply Hfalsy.
  - destruct (negb (z =? 0)%Z).
    + exists h. rewrite run_ret. by same_store.
    + rewrite run_fmap. by apply Hfalsy.
  - destruct (negb (String.eqb s "")).
    + exists h. rewrite run_ret. by same_store.
    + rewrite run_fmap. by apply Hfalsy.
  - rewrite run_ret. destruct (arrays h !! l) as [base|] eqn:Hl.
    + by apply run_tail.
    + exists h. rewrite run_bind. cbn. unfold readArray. rewrite run_bind.
      rewrite Hl. by same_store.
  - exists h. rewrite run_ret. by same_store.
Qed.

(** Lines 60 to 70 when [oldValue] is an array. *)
Lemma run_array h l a p o name t :
  arrays h !! l = Some a ->
  objects h !! p = Some o ->
  exists h',
    (empty ← length_is_zero (VArray l);
     oldSourceList ← (if empty : bool
                      then d ← getProperty p "default-src";
                           if truthy d then mret d
                           else VArray <$> newArray []
                      else mret (VArray l));
     newSourceList ← slice oldSourceList;
     push newSourceList t;;
     s ← join newSourceList;
     setProperty p name (VString s)) h =
      (match match a with
             | [] => fallbackBase (arrays h) (Obj.get o "default-src")
             | x :: r => Normal (x :: r)
             end with
       | Normal _ => Normal tt
       | Thrown e => Thrown e
       end, h') /\
    arrays_preserved h h' /\ console h' = console h /\ ui h' = ui h /\
    objects h' =
      match match a with
            | [] => fallbackBase (arrays h) (Obj.get o "default-src")
            | x :: r => Normal (x :: r)
            end with
      | Normal base =>
          <[p := Obj.set o name (VString (Str.join " " (base ++ [t])))]>
            (objects h)
      | Thrown _ => objects h
      end.
Proof.
  intros Hl Hp. rewrite run_bind. unfold length_is_zero, readArray.
  rewrite run_bind, Hl, run_ret.
  destruct a as [|x a]; cbn [length Nat.eqb].
  - by apply run_fallback.
  - rewrite run_bind, run_ret. by apply run_tail.
Qed.

Lemma appendSourceList_spec h p o name t :
  objects h !! p = Some o ->
  exists h',
    appendSourceList p name t h =
      (match sourceBase (arrays h) o name with
       | Normal _ => Normal tt
       | Thrown e => Thrown e
       end, h') /\
    arrays_preserved h h' /\ console h' = console h /\ ui h' = ui h /\
    objects h' =
      match sourceBase (arrays h) o name with
      | Normal base =>
          <[p := Obj.set o name (VString (Str.join " " (base ++ [t])))]>
            (objects h)
      | Thrown _ => objects h
      end.
Proof.
  intros Hp. unfold appendSourceList, sourceBase.
  rewrite run_bind, (run_getProperty _ _ _ _ Hp).
  destruct (Obj.get o name) as [| |b|z|s|l|] eqn:Hv; cbn.
  - repeat (rewrite run_bind; cbn; rewrite ?run_ret).
    by apply run_fallback.
  - repeat (rewrite run_bind; cbn; rewrite ?run_ret).
    by apply run_fallback.
  - exists h. destruct b; by same_store.
  - exists h. destruct (negb (z =? 0)%Z); by same_store.
  - destruct (String.eqb s "") eqn:Hs; cbn.
    + exists h. by same_store.
    + rewrite run_bind, run_fmap. cbn. rewrite run_bind, run_ret.
      pose proof (StrFacts.split_nonempty s) as Hne.
      destruct (run_array (set_arrays (insert (fresh (dom (arrays h)))
                                         (Str.split s)) h)
                  (fresh (dom (arrays h))) (Str.split s) p o name t)
        as (h' & Hrun & Harr & Hc & Hu & Hobj); [apply lookup_insert_eq|done|].
      destruct (Str.split s) as [|w ws]; [done|].
      exists h'. repeat split; try done.
      eapply arrays_preserved_trans; [apply arrays_preserved_alloc | done].
  - rewrite run_bind, run_ret. cbn. rewrite run_bind, run_ret.
    destruct (arrays h !! l) as [a|] eqn:Hl.
    + by apply run_array.
    + exists h. rewrite run_bind. unfold length_is_zero, readArray.
      rewrite run_bind, Hl. by same_store.
  - exists h. by same_store.
Qed.

Lemma appendSourceList_unallocated h p name t :
  objects h !! p = None ->
  appendSourceList p name t h = (Thrown BadReference, h).
Proof.
  intros Hp. unfold appendSourceList, getProperty, readObject.
  rewrite !run_bind. by rewrite Hp.
Qed.

(** ** Objects *)

Module ObjFacts.
Import Obj.

Lemma lookup_set o k v k' :
  lookup (set o k v) k' = if String.eqb k k' then Some v else lookup o k'.
Proof.
  induction o as [|[k0 v0] r IH]; cbn [set lookup].
  - done.
  - destruct (String.eqb_spec k0 k) as [->|Hne]; cbn [lookup].
    + destruct (String.eqb k k'); done.
    + rewrite IH. destruct (String.eqb_spec k0 k') as [->|Hne'].
      * by destruct (String.eqb_spec k k') as [->|].
      * done.
Qed.

Lemma get_set_eq o k v : get (set o k v) k = v.
Proof. unfold get. by rewrite lookup_set, String.eqb_refl. Qed.

Lemma get_set_ne o k v k' : k <> k' -> get (set o k v) k' = get o k'.
Proof.
  intros Hne. unfold get. rewrite lookup_set.
  by apply String.eqb_neq in Hne as ->.
Qed.

Lemma has_set_ne o k v k' : k <> k' -> has (set o k v) k' = has o k'.
Proof.
  intros Hne. unfold has. rewrite lookup_set.
  by apply String.eqb_neq in Hne as ->.
Qed.

Lemma has_set_eq o k v : has (set o k v) k = true.
Proof. unfold has. by rewrite lookup_set, String.eqb_refl. Qed.

Lemma set_set o k v v' : set (set o k v) k v' = set o k v'.
Proof.
  induction o as [|[k0 v0] r IH]; cbn [set].
  - by rewrite String.eqb_refl.
  - destruct (String.eqb k0 k) eqn:E; cbn [set]; rewrite E; congruence.
Qed.

(** Writing [k] again after [k'] was written leaves [k'] where it is. *)
Lemma set_set_back o k v k' w v' :
  k <> k' -> set (set (set o k v) k' w) k v' = set (set o k v') k' w.
Proof.
  intros Hne. assert (Hkk' : String.eqb k k' = false) by by apply String.eqb_neq.
  induction o as [|[k0 v0] r IH]; cbn [set].
  - rewrite Hkk'. cbn [set]. by rewrite String.eqb_refl, ?Hkk'.
  - destruct (String.eqb k0 k) eqn:Hk; cbn [set].
    + apply String.eqb_eq in Hk as ->. rewrite Hkk'. cbn [set].
      by rewrite String.eqb_refl, ?Hkk'.
    + destruct (String.eqb k0 k') eqn:Hk'; cbn [set]; rewrite ?Hk; cbn [set];
        rewrite ?Hk'; [by rewrite set_set | by rewrite IH].
Qed.

Lemma lookup_In o k v : lookup o k = Some v -> In (k, v) o.
Proof.
  induction o as [|[k0 v0] r IH]; cbn [lookup]; [done|].
  destruct (String.eqb_spec k0 k) as [->|Hk].
  - intros [= ->]. by left.
  - intros Hl. right. by apply IH.
Qed.

End ObjFacts.

(** ** Facts on [sourceBase] *)

Lemma normalize_mono h h' v b :
  arrays_preserved h h' ->
  normalize (arrays h) v = Normal b -> normalize (arrays h') v = Normal b.
Proof.
  intros Hpres. destruct v as [| |?|?|s|l|]; cbn; try done.
  destruct (arrays h !! l) as [a|] eqn:Hl; [|done].
  by rewrite (Hpres _ _ Hl).
Qed.

Lemma fallbackBase_mono h h' d b :
  arrays_preserved h h' ->
  fallbackBase (arrays h) d = Normal b -> fallbackBase (arrays h') d = Normal b.
Proof.
  intros Hpres. destruct d as [| |?|?|s|l|]; cbn; try done.
  destruct (arrays h !! l) as [a|] eqn:Hl; [|done].
  by rewrite (Hpres _ _ Hl).
Qed.

Lemma sourceBase_mono h h' o name b :
  arrays_preserved h h' ->
  sourceBase (arrays h) o name = Normal b ->
  sourceBase (arrays h') o name = Normal b.
Proof.
  intros Hpres. unfold sourceBase.
  destruct (normalize (arrays h) (Obj.get o name)) as [a|e] eqn:Hn; [|done].
  rewrite (normalize_mono _ _ _ _ Hpres Hn).
  destruct a; [apply fallbackBase_mono, Hpres | done].
Qed.

Lemma sourceBase_set_other arrs o k v name :
  k <> name -> k <> "default-src" ->
  sourceBase arrs (Obj.set o k v) name = sourceBase arrs o name.
Proof.
  intros Hn Hd. unfold sourceBase.
  by rewrite !ObjFacts.get_set_ne.
Qed.

Lemma sourceBase_string arrs o name s :
  Obj.get o name = VString s -> s <> "" ->
  sourceBase arrs o name = Normal (Str.split s).
Proof.
  intros Hv Hs. unfold sourceBase. rewrite Hv. cbn.
  apply String.eqb_neq in Hs as ->.
  pose proof (StrFacts.split_nonempty s).
  by destruct (Str.split s).
Qed.

(** ** Appends in a row *)

Lemma updates_lookup p o' h h' : updates p o' h h' -> objects h' !! p = Some o'.
Proof. intros (_ & _ & _ & ->). apply lookup_insert_eq. Qed.

Lemma updates_trans p o1 o2 h h1 h2 :
  updates p o1 h h1 -> updates p o2 h1 h2 -> updates p o2 h h2.
Proof.
  intros (Ha1 & Hc1 & Hu1 & Ho1) (Ha2 & Hc2 & Hu2 & Ho2).
  repeat split; [by eapply arrays_preserved_trans | congruence..|].
  by rewrite Ho2, Ho1, insert_insert_eq.
Qed.

Lemma appendSourceList_ok h p o name t base :
  objects h !! p = Some o ->
  sourceBase (arrays h) o name = Normal base ->
  exists h',
    appendSourceList p name t h = (Normal tt, h') /\
    updates p (Obj.set o name (VString (Str.join " " (base ++ [t])))) h h'.
Proof.
  intros Hp Hb.
  destruct (appendSourceList_spec h p o name t Hp) as (h' & Hrun & Hrest).
  rewrite Hb in *. by exists h'.
Qed.

Lemma appendSourceList_throws h p o name t e :
  objects h !! p = Some o ->
  sourceBase (arrays h) o name = Thrown e ->
  exists h',
    appendSourceList p name t h = (Thrown e, h') /\
    arrays_preserved h h' /\ objects h' = objects h.
Proof.
  intros Hp Hb.
  destruct (appendSourceList_spec h p o name t Hp)
    as (h' & Hrun & Ha & _ & _ & Ho).
  rewrite Hb in *. by exists h'.
Qed.

Lemma setProperty_ok h p o k v :
  objects h !! p = Some o ->
  setProperty p k v h = (Normal tt, set_objects (insert p (Obj.set o k v)) h) /\
  updates p (Obj.set o k v) h (set_objects (insert p (Obj.set o k v)) h).
Proof.
  intros Hp. split.
  - unfold setProperty. by rewrite run_bind, (run_readObject _ _ _ Hp).
  - repeat split. by intros l a.
Qed.

Lemma join_split_join l r :
  l <> [] ->
  Str.join " " (Str.split (Str.join " " l) ++ r) = Str.join " " (l ++ r).
Proof.
  intros Hl. induction r as [|x r IH] using rev_ind.
  - by rewrite !app_nil_r, StrFacts.join_split.
  - rewrite !app_assoc.
    rewrite !StrFacts.join_snoc.
    + by rewrite IH.
    + by destruct l.
    + pose proof (StrFacts.split_nonempty (Str.join " " l)).
      by destruct (Str.split (Str.join " " l)).
Qed.

Lemma join_snoc_not_empty l t : t <> "" -> Str.join " " (l ++ [t]) <> "".
Proof.
  intros Ht. destruct l as [|x l]; [done|].
  rewrite StrFacts.join_snoc by done.
  destruct t; [done|]. rewrite <- StrFacts.append_assoc.
  apply StrFacts.append_not_empty.
Qed.

(** After an append of a non-empty source the directive is a string whose
    pieces are the base and the source. *)
Lemma sourceBase_appended arrs o name base ts t :
  t <> "" ->
  let o' := Obj.set o name (VString (Str.join " " (base ++ ts ++ [t]))) in
  exists b, sourceBase arrs o' name = Normal b /\
    forall r, Str.join " " (b ++ r) = Str.join " " (base ++ ts ++ [t] ++ r).
Proof.
  intros Ht o'. exists (Str.split (Str.join " " (base ++ ts ++ [t]))). split.
  - apply sourceBase_string; [apply ObjFacts.get_set_eq|].
    rewrite app_assoc. by apply join_snoc_not_empty.
  - intros r. rewrite join_split_join; [by rewrite <- !app_assoc|].
    rewrite app_assoc. by destruct (base ++ ts).
Qed.

(** Two appends to two directives, as each turn of the live-reload loop
    does them. *)
Lemma append_pair h p o k1 k2 b1 b2 t1 t2 :
  k1 <> k2 -> k1 <> "default-src" ->
  objects h !! p = Some o ->
  sourceBase (arrays h) o k1 = Normal b1 ->
  sourceBase (arrays h) o k2 = Normal b2 ->
  exists h',
    (appendSourceList p k1 t1;; appendSourceList p k2 t2) h = (Normal tt, h') /\
    updates p (Obj.set (Obj.set o k1 (VString (Str.join " " (b1 ++ [t1]))))
                 k2 (VString (Str.join " " (b2 ++ [t2])))) h h'.
Proof.
  intros Hk Hd Hp H1 H2.
  destruct (appendSourceList_ok h p o k1 t1 b1 Hp H1) as (h1 & Hrun1 & Hu1).
  pose proof (updates_lookup _ _ _ _ Hu1) as Hp1.
  destruct (appendSourceList_ok h1 p _ k2 t2 b2 Hp1) as (h2 & Hrun2 & Hu2).
  { rewrite sourceBase_set_other by done.
    eapply sourceBase_mono; [apply Hu1 | done]. }
  exists h2. split.
  - by rewrite run_bind, Hrun1.
  - by eapply updates_trans.
Qed.

Section LiveReloadLoop.

Variable p : loc.
Variables tc ts : string -> string.
Hypothesis tc_not_empty : forall x, tc x <> "".
Hypothesis ts_not_empty : forall x, ts x <> "".

Let turn (x : string) : M unit :=
  appendSourceList p "connect-src" (tc x);;
  appendSourceList p "script-src" (ts x).

Lemma forEach_turns rest :
  forall x h o bc bs c s,
    objects h !! p = Some o ->
    sourceBase (arrays h) o "connect-src" = Normal bc ->
    (forall r, Str.join " " (bc ++ r) = Str.join " " (c ++ r)) ->
    sourceBase (arrays h) o "script-src" = Normal bs ->
    (forall r, Str.join " " (bs ++ r) = Str.join " " (s ++ r)) ->
    exists h',
      forEach (x :: rest) turn h = (Normal tt, h') /\
      updates p
        (Obj.set
           (Obj.set o "connect-src"
              (VString (Str.join " " (c ++ map tc (x :: rest)))))
           "script-src" (VString (Str.join " " (s ++ map ts (x :: rest)))))
        h h'.
Proof.
  induction rest as [|y rest IH]; intros x h o bc bs c s Hp Hc Hcj Hs Hsj.
  - destruct (append_pair h p o "connect-src" "script-src" bc bs (tc x) (ts x))
      as (h' & Hrun & Hu); [done..|].
    exists h'. split.
    + cbn [forEach]. rewrite run_bind. fold (turn x). unfold turn at 1.
      by rewrite Hrun.
    + cbn [map]. by rewrite <- Hcj, <- Hsj.
  - destruct (append_pair h p o "connect-src" "script-src" bc bs (tc x) (ts x))
      as (h1 & Hrun1 & Hu1); [done..|].
    pose proof (updates_lookup _ _ _ _ Hu1) as Hp1.
    destruct (sourceBase_appended (arrays h1) o "connect-src" bc [] (tc x)
                (tc_not_empty x)) as (bc' & Hbc' & Hbcj').
    destruct (sourceBase_appended (arrays h1)
                (Obj.set o "connect-src"
                   (VString (Str.join " " (bc ++ [tc x]))))
                "script-src" bs [] (ts x) (ts_not_empty x))
      as (bs' & Hbs' & Hbsj').
    cbn [app] in Hbc', Hbcj', Hbs', Hbsj'.
    destruct (IH y h1 _ bc' bs' (c ++ [tc x]) (s ++ [ts x]) Hp1)
      as (h2 & Hrun2 & Hu2).
    + by rewrite sourceBase_set_other.
    + intros r. by rewrite Hbcj', (Hcj (tc x :: r)), <- app_assoc.
    + done.
    + intros r. by rewrite Hbsj', (Hsj (ts x :: r)), <- app_assoc.
    + exists h2. split.
      * change (forEach (x :: y :: rest) turn) with
          (turn x;; forEach (y :: rest) turn).
        rewrite run_bind. unfold turn at 1. by rewrite Hrun1.
      * eapply updates_trans; [done|].
        rewrite !ObjFacts.set_set_back in Hu2 by done.
        rewrite <- !app_assoc in Hu2. done.
Qed.

End LiveReloadLoop.

(** ** The append *)

(** The fallback of lines 60 to 62, for a [default-src] that is an array or
    is falsy: the directive gets the sources of [default-src] and the new
    one. *)
Lemma appendSourceList_fallback h p o name t base :
  objects h !! p = Some o ->
  normalize (arrays h) (Obj.get o name) = Normal [] ->
  fallbackBase (arrays h) (Obj.get o "default-src") = Normal base ->
  exists h',
    appendSourceList p name t h = (Normal tt, h') /\
    getProperty p name h' = (Normal (VString (Str.join " " (base ++ [t]))), h').
Proof.
  intros Hp Hn Hd.
  destruct (appendSourceList_ok h p o name t base Hp) as (h' & Hrun & Hu).
  { unfold sourceBase. by rewrite Hn. }
  exists h'. split; [done|].
  rewrite (run_getProperty _ _ _ _ (updates_lookup _ _ _ _ Hu)).
  by rewrite ObjFacts.get_set_eq.
Qed.

Example appendSourceList_fallback_example :
  exists h',
    appendSourceList 0 "connect-src" "b.com" store_default_array
      = (Normal tt, h') /\
    getProperty 0 "connect-src" h' = (Normal (VString "'self' a.com b.com"), h').
Proof.
  by apply (appendSourceList_fallback store_default_array 0
              [("default-src", VArray 0)] "connect-src" "b.com"
              ["'self'"; "a.com"]).
Qed.

(** C1 (the code at the failing input): with
    [P = {"default-src": "'self' a.com"}], a [default-src] stored as a raw
    space-separated string, [append(P, "connect-src", "b.com")] does not
    give [connect-src] the value ['self' a.com b.com]: line 62 takes the
    string as the list, [slice] gives the string back and [push] is missing
    on it, so the call throws a [TypeError] and [P] is left as it was. *)
Theorem appendSourceList_string_default_src :
  appendSourceList 0 "connect-src" "b.com" store_default_string
    = (Thrown TypeError, store_default_string).
Proof. reflexivity. Qed.

(** C4: when [P[D]] normalizes to a non-empty sequence [existing],
    [append(P, D, T)] gives [D] the value [existing] followed by [T], joined
    by single spaces, and [default-src] is not consulted: nothing is asked
    of it, and putting any value [d] in its place gives [D] the same value. *)
Theorem appendSourceList_explicit h p o name t existing :
  objects h !! p = Some o ->
  normalize (arrays h) (Obj.get o name) = Normal existing ->
  existing <> [] ->
  (exists h',
     appendSourceList p name t h = (Normal tt, h') /\
     getProperty p name h'
       = (Normal (VString (Str.join " " (existing ++ [t]))), h')) /\
  (forall d, name <> "default-src" ->
     exists h',
       appendSourceList p name t
         (set_objects (insert p (Obj.set o "default-src" d)) h)
         = (Normal tt, h') /\
       getProperty p name h'
         = (Normal (VString (Str.join " " (existing ++ [t]))), h')).
Proof.
  intros Hp Hn Hne.
  assert (Hgen : forall h2 o2,
    objects h2 !! p = Some o2 -> arrays h2 = arrays h ->
    Obj.get o2 name = Obj.get o name ->
    exists h',
      appendSourceList p name t h2 = (Normal tt, h') /\
      getProperty p name h'
        = (Normal (VString (Str.join " " (existing ++ [t]))), h')).
  { intros h2 o2 Hp2 Ha2 Hv2.
    destruct (appendSourceList_ok h2 p o2 name t existing Hp2)
      as (h' & Hrun & Hu).
    { unfold sourceBase. rewrite Ha2, Hv2, Hn. by destruct existing. }
    exists h'. split; [done|].
    rewrite (run_getProperty _ _ _ _ (updates_lookup _ _ _ _ Hu)).
    by rewrite ObjFacts.get_set_eq. }
  split.
  - by apply (Hgen h o).
  - intros d Hd. apply (Hgen _ (Obj.set o "default-src" d)).
    + apply lookup_insert_eq.
    + done.
    + by apply ObjFacts.get_set_ne.
Qed.

Lemma appendSourceList_explicit_witness :
  exists h',
    appendSourceList 0 "script-src" "'nonce-x'" store_script_self
      = (Normal tt, h') /\
    getProperty 0 "script-src" h' = (Normal (VString "'self' 'nonce-x'"), h').
Proof.
  destruct (appendSourceList_explicit store_script_self 0
              [("script-src", VArray 0)] "script-src" "'nonce-x'" ["'self'"])
    as [Hrun _]; [reflexivity | reflexivity | discriminate | exact Hrun].
Defined.

(** C2 (as stated, refuted): [append] writes into the object it is given.
    With [P = {"script-src": ["'self'"]}], [P["script-src"]] is the array
    before the call and the string ['self' 'nonce-x'] when re-read from [P]
    after it; the call itself returns nothing. *)
Lemma appendSourceList_mutates_input :
  let before := store_script_self in
  let after := snd (appendSourceList 0 "script-src" "'nonce-x'" before) in
  fst (appendSourceList 0 "script-src" "'nonce-x'" before) = Normal tt /\
  fst (getProperty 0 "script-src" before) = Normal (VArray 0) /\
  fst (getProperty 0 "script-src" after) = Normal (VString "'self' 'nonce-x'").
Proof. repeat split. Qed.

(** C2 (amended): [append] updates the policy object it is given in place
    and returns nothing.  After [append(P, D, T)] has returned, [D] of [P]
    holds the new source list as a string: the sources [D] stood for, those
    of [default-src] when [D] had none, then [T], joined by single spaces.
    Every directive of [P] other than [D] has its original value when
    re-read from [P], every other object is as it was and every array that
    existed before the call, the source lists of [P] among them, has its
    original elements.  After a call that throws, [P] itself is as it was
    too. *)
Theorem appendSourceList_in_place h p o name t r h' :
  objects h !! p = Some o ->
  appendSourceList p name t h = (r, h') ->
  arrays_preserved h h' /\
  (forall q, q <> p -> objects h' !! q = objects h !! q) /\
  match r with
  | Normal _ =>
      (exists base,
         sourceBase (arrays h) o name = Normal base /\
         getProperty p name h'
           = (Normal (VString (Str.join " " (base ++ [t]))), h')) /\
      (forall k, k <> name -> getProperty p k h' = (Normal (Obj.get o k), h'))
  | Thrown _ => objects h' !! p = Some o
  end.
Proof.
  intros Hp Hrun.
  destruct (appendSourceList_spec h p o name t Hp)
    as (h2 & Hrun2 & Ha & _ & _ & Ho).
  rewrite Hrun in Hrun2.
  destruct (sourceBase (arrays h) o name) as [base|e];
    injection Hrun2 as -> ->; (split; [done|]).
  - assert (Hp' : objects h2 !! p
                  = Some (Obj.set o name
                            (VString (Str.join " " (base ++ [t])))))
      by (rewrite Ho; apply lookup_insert_eq).
    split; [|split].
    + intros q Hq. rewrite Ho. by apply lookup_insert_ne.
    + exists base. split; [done|]. rewrite (run_getProperty _ _ _ _ Hp').
      by rewrite ObjFacts.get_set_eq.
    + intros k Hk. rewrite (run_getProperty _ _ _ _ Hp').
      by rewrite ObjFacts.get_set_ne.
  - split; [|by rewrite Ho]. intros q _. by rewrite Ho.
Qed.

Lemma appendSourceList_in_place_witness :
  let h' := snd (appendSourceList 0 "connect-src" "b.com" store_default_array) in
  arrays_preserved store_default_array h' /\
  getProperty 0 "connect-src" h' = (Normal (VString "'self' a.com b.com"), h') /\
  getProperty 0 "default-src" h' = (Normal (VArray 0), h') /\
  arrays h' !! 0 = Some ["'self'"; "a.com"].
Proof.
  intros h'.
  destruct (appendSourceList_in_place store_default_array 0
              [("default-src", VArray 0)] "connect-src" "b.com" (Normal tt) h')
    as (Ha & _ & (base & Hb & Hget) & Hk); [reflexivity | reflexivity |].
  split; [exact Ha|]. split; [|split].
  - vm_compute in Hb. injection Hb as <-. exact Hget.
  - apply (Hk "default-src"). discriminate.
  - apply Ha. reflexivity.
Defined.

(** C5 (as stated, refuted): a value that is neither absent, nor a string,
    nor an array need not raise, and a string can raise.  With
    [script-src] set to [null] the append returns: line 56 lets [null]
    through.  With [script-src] set to the empty string it throws
    ['Unknown source list value']. *)
Lemma appendSourceList_raise_counterexample :
  fst (appendSourceList 0 "script-src" "b.com" (store_script VNull))
    = Normal tt /\
  fst (appendSourceList 0 "script-src" "b.com" (store_script (VString "")))
    = Thrown UnknownSourceListValue.
Proof. split; reflexivity. Qed.

(** C5 (amended): for a directive value that is neither [undefined]
    (absent), nor [null], nor a string, nor an array, the append throws
    ['Unknown source list value'].  For a non-empty string or a non-empty
    array it does not raise.  For a value that is absent, [null] or an
    empty array it does not raise when [default-src] is falsy (absent among
    others) or an array. *)
Theorem appendSourceList_raises h p o name t :
  objects h !! p = Some o ->
  let v := Obj.get o name in
  let d := Obj.get o "default-src" in
  let run := appendSourceList p name t h in
  (is_undefined v = false -> is_null v = false -> is_string v = false ->
   isArray v = false -> fst run = Thrown UnknownSourceListValue) /\
  (forall s, v = VString s -> s <> "" -> fst run = Normal tt) /\
  (forall l x a, v = VArray l -> arrays h !! l = Some (x :: a) ->
   fst run = Normal tt) /\
  (v = VUndefined \/ v = VNull \/
     (exists l, v = VArray l /\ arrays h !! l = Some []) ->
   truthy d = false \/ (exists l a, d = VArray l /\ arrays h !! l = Some a) ->
   fst run = Normal tt).
Proof.
  intros Hp v d run.
  destruct (appendSourceList_spec h p o name t Hp) as (h' & Hrun & _).
  subst run. rewrite Hrun. cbn [fst]. unfold sourceBase. fold v. fold d.
  repeat split.
  - intros Hu Hn Hs Ha. by destruct v.
  - intros s -> Hs. cbn. apply String.eqb_neq in Hs as ->.
    pose proof (StrFacts.split_nonempty s). by destruct (Str.split s).
  - intros l x a -> Hl. cbn. by rewrite Hl.
  - intros Hv Hd.
    assert (Hfb : exists base, fallbackBase (arrays h) d = Normal base).
    { destruct Hd as [Hd|(l & a & -> & Hl)].
      - exists []. destruct d; cbn in *; try done; by rewrite Hd.
      - exists a. cbn. by rewrite Hl. }
    destruct Hfb as (base & ->).
    destruct Hv as [->|[->|(l & -> & Hl)]]; cbn; try done.
    by rewrite Hl.
Qed.

Lemma appendSourceList_raises_witness :
  fst (appendSourceList 0 "script-src" "b.com" (store_script (VNumber 7)))
    = Thrown UnknownSourceListValue /\
  fst (appendSourceList 0 "script-src" "b.com" (store_script (VString "'self'")))
    = Normal tt.
Proof.
  split.
  - apply (appendSourceList_raises (store_script (VNumber 7)) 0
             [("script-src", VNumber 7)] "script-src" "b.com");
      reflexivity.
  - destruct (appendSourceList_raises (store_script (VString "'self'")) 0
                [("script-src", VString "'self'")] "script-src" "b.com")
      as (_ & Hs & _); [reflexivity|].
    apply (Hs "'self'"); [reflexivity | discriminate].
Defined.

(** ** Live reload *)

Lemma prefix_not_empty s t : s <> "" -> s +:+ t <> "".
Proof. by destruct s. Qed.

Lemma allowLiveReload_spec h p o cfg bc bs c s :
  objects h !! p = Some o ->
  sourceBase (arrays h) o "connect-src" = Normal bc ->
  (forall r, Str.join " " (bc ++ r) = Str.join " " (c ++ r)) ->
  sourceBase (arrays h) o "script-src" = Normal bs ->
  (forall r, Str.join " " (bs ++ r) = Str.join " " (s ++ r)) ->
  exists h',
    allowLiveReload p cfg h = (Normal tt, h') /\
    updates p
      (Obj.set
         (Obj.set o "connect-src"
            (VString (Str.join " "
               (c ++ map (liveReloadConnect cfg)
                      (liveReloadHosts (lr_hostname cfg))))))
         "script-src"
         (VString (Str.join " "
            (s ++ map (liveReloadScript cfg)
                   (liveReloadHosts (lr_hostname cfg))))))
      h h'.
Proof.
  intros Hp Hc Hcj Hs Hsj. unfold allowLiveReload, liveReloadHosts.
  apply (forEach_turns p (liveReloadConnect cfg) (liveReloadScript cfg))
    with (bc := bc) (bs := bs); try done.
  - intros x. unfold liveReloadConnect. apply prefix_not_empty.
    by destruct (lr_ssl cfg).
  - intros x. apply StrFacts.append_not_empty.
Qed.

(** C6: for every live-reload configuration and every policy object the
    live-reload step goes through the candidate hosts [localhost],
    [0.0.0.0] and then the configured hostname, a falsy hostname being
    skipped, and for each one appends the websocket origin ([wss://] with
    TLS, [ws://] without) to [connect-src] and [<host>:<port>] to
    [script-src].  When the two directives stand for the lists [c] and [s]
    they end as [c] and [s] followed by those sources in candidate order,
    joined by single spaces. *)
Theorem allowLiveReload_appends p cfg :
  let candidates :=
    ["localhost"; "0.0.0.0"] ++
    match lr_hostname cfg with
    | Some hostname => if String.eqb hostname "" then [] else [hostname]
    | None => []
    end in
  let protocol := if lr_ssl cfg then "wss://" else "ws://" in
  let port := Str.of_N (lr_port cfg) in
  (forall h,
     allowLiveReload p cfg h
     = forEach candidates (fun host =>
         appendSourceList p "connect-src" (protocol +:+ (host +:+ ":" +:+ port));;
         appendSourceList p "script-src" (host +:+ ":" +:+ port)) h) /\
  (forall h o c s,
     objects h !! p = Some o ->
     sourceBase (arrays h) o "connect-src" = Normal c ->
     sourceBase (arrays h) o "script-src" = Normal s ->
     exists h',
       allowLiveReload p cfg h = (Normal tt, h') /\
       objects h' !! p =
         Some (Obj.set
                 (Obj.set o "connect-src"
                    (VString (Str.join " "
                       (c ++ map (fun host =>
                                    protocol +:+ (host +:+ ":" +:+ port))
                               candidates))))
                 "script-src"
                 (VString (Str.join " "
                    (s ++ map (fun host => host +:+ ":" +:+ port)
                            candidates))))).
Proof.
  intros candidates protocol port. split; [done|].
  intros h o c s Hp Hc Hs.
  destruct (allowLiveReload_spec h p o cfg c s c s Hp Hc) as (h' & Hrun & Hu);
    [done..|].
  exists h'. split; [done|]. by apply updates_lookup in Hu.
Qed.

Lemma allowLiveReload_appends_witness :
  exists h',
    allowLiveReload 0 (LiveReload (Some "example.com") None 4200 false)
      store_connect_script = (Normal tt, h') /\
    objects h' !! 0 =
      Some [("connect-src",
             VString "'self' ws://localhost:4200 ws://0.0.0.0:4200 ws://example.com:4200");
            ("script-src",
             VString "'self' localhost:4200 0.0.0.0:4200 example.com:4200")].
Proof.
  destruct (allowLiveReload_appends 0
              (LiveReload (Some "example.com") None 4200 false))
    as [_ Hwell].
  destruct (Hwell store_connect_script
              [("connect-src", VArray 0); ("script-src", VArray 1)]
              ["'self'"] ["'self'"])
    as (h' & Hrun & Hobj); [reflexivity..|].
  exists h'. split; [exact Hrun | exact Hobj].
Defined.

(** What [serverMiddleware] stores has no [hostname] property: through the
    hooks the configured live-reload host is never a candidate. *)
Example serverMiddleware_liveReload_hosts this opts :
  opt_liveReload opts = true ->
  option_map (fun lr => liveReloadHosts (lr_hostname lr))
    (_liveReload (serverMiddleware this opts))
  = Some ["localhost"; "0.0.0.0"].
Proof. intros Hlr. unfold serverMiddleware. by rewrite Hlr. Qed.

(** ** What a computation leaves alone *)

Section Preserves.

Variable R : store -> store -> Prop.
Context `{!PreOrder R}.

Lemma preserves_ret {A} (a : A) : preserves R (mret a : M A).
Proof. intros h. reflexivity. Qed.

Lemma preserves_throw {A} e : preserves R (@throw A e).
Proof. intros h. reflexivity. Qed.

Lemma preserves_bind {A B} (m : M A) (k : A -> M B) :
  preserves R m -> (forall a, preserves R (k a)) -> preserves R (m ≫= k).
Proof.
  intros Hm Hk h. rewrite run_bind. specialize (Hm h).
  destruct (m h) as [[a|e] h1]; cbn [snd] in *; [|done].
  etrans; [done | apply Hk].
Qed.

Lemma preserves_fmap {A B} (f : A -> B) (m : M A) :
  preserves R m -> preserves R (f <$> m).
Proof.
  intros Hm h. rewrite run_fmap. specialize (Hm h).
  by destruct (m h) as [[a|e] h1].
Qed.

Lemma preserves_forEach {A} (l : list A) (f : A -> M unit) :
  (forall x, preserves R (f x)) -> preserves R (forEach l f).
Proof.
  intros Hf. induction l as [|x l IH]; cbn [forEach].
  - apply preserves_ret.
  - apply preserves_bind; [apply Hf | by intros _].
Qed.

End Preserves.

#[local] Instance frame_preorder p : PreOrder (frame p).
Proof.
  split.
  - intros h. split; [apply arrays_preserved_refl | auto].
  - intros h1 h2 h3 [Ha1 Ho1] [Ha2 Ho2]. split.
    + by eapply arrays_preserved_trans.
    + intros q o Hq Hl. by apply Ho2, Ho1.
Qed.

#[local] Instance preserved_preorder : PreOrder preserved.
Proof.
  split.
  - intros h. split; [apply arrays_preserved_refl | by intros q o].
  - intros h1 h2 h3 [Ha1 Ho1] [Ha2 Ho2]. split.
    + by eapply arrays_preserved_trans.
    + intros q o Hl. by apply Ho2, Ho1.
Qed.

Lemma preserved_frame p h h' : preserved h h' -> frame p h h'.
Proof. intros [Ha Ho]. split; [done|]. intros q o _. apply Ho. Qed.

Lemma heap_unchanged_preserved {A} (m : M A) :
  heap_unchanged m -> preserves preserved m.
Proof.
  intros Hm h. destruct (Hm h) as [Ha Ho]. split.
  - intros l a. by rewrite Ha.
  - intros q o. by rewrite Ho.
Qed.

Lemma readObject_unchanged p : heap_unchanged (readObject p).
Proof. intros h. unfold readObject. by destruct (objects h !! p). Qed.

Lemma getProperty_unchanged p k : heap_unchanged (getProperty p k).
Proof.
  intros h. unfold getProperty, readObject. rewrite run_bind.
  by destruct (objects h !! p).
Qed.

Lemma hasProperty_unchanged p k : heap_unchanged (hasProperty p k).
Proof.
  intros h. unfold hasProperty, readObject. rewrite run_bind.
  by destruct (objects h !! p).
Qed.

Lemma console_log_unchanged msg : heap_unchanged (console_log msg).
Proof. by intros h. Qed.

Lemma writeWarnLine_unchanged msg test : heap_unchanged (writeWarnLine msg test).
Proof. by intros h. Qed.

Lemma unsupportedDirectives_unchanged p :
  heap_unchanged (unsupportedDirectives p).
Proof.
  intros h. unfold unsupportedDirectives, readObject. rewrite run_bind.
  by destruct (objects h !! p).
Qed.

Lemma setProperty_frame p k v : preserves (frame p) (setProperty p k v).
Proof.
  intros h. unfold setProperty, readObject. rewrite run_bind.
  destruct (objects h !! p) as [o|]; cbn; [|reflexivity].
  split; [by intros l a|]. intros q o' Hq Hl. cbn.
  by rewrite lookup_insert_ne.
Qed.

Lemma appendSourceList_frame p name t :
  preserves (frame p) (appendSourceList p name t).
Proof.
  intros h. destruct (objects h !! p) as [o|] eqn:Hp.
  - destruct (appendSourceList_spec h p o name t Hp)
      as (h' & -> & Ha & _ & _ & Ho). cbn [snd].
    split; [done|]. intros q o' Hq Hl. rewrite Ho.
    destruct (sourceBase (arrays h) o name); [|done].
    by rewrite lookup_insert_ne.
  - rewrite (appendSourceList_unallocated _ _ _ _ Hp). reflexivity.
Qed.

Lemma allowLiveReload_frame p cfg : preserves (frame p) (allowLiveReload p cfg).
Proof.
  apply preserves_forEach; [apply _|]. intros x.
  apply preserves_bind; [apply _ | apply appendSourceList_frame |].
  intros _. apply appendSourceList_frame.
Qed.

Lemma liveReloadStep_frame this p : preserves (frame p) (liveReloadStep this p).
Proof.
  unfold liveReloadStep. destruct (_liveReload this).
  - apply allowLiveReload_frame.
  - apply preserves_ret, _.
Qed.

Lemma reportEndpoint_frame header opts p :
  preserves (frame p) (reportEndpoint header opts p).
Proof.
  unfold reportEndpoint. destruct (Str.includes "Report-Only" header).
  - apply preserves_bind; [apply _ | |].
    + intros h. apply preserved_frame, heap_unchanged_preserved,
        hasProperty_unchanged.
    + intros [|]; cbn [negb]; [apply preserves_ret, _|].
      apply preserves_bind; [apply _ | apply appendSourceList_frame |].
      intros _. apply setProperty_frame.
  - apply preserves_ret, _.
Qed.

(** ** The hooks leave the configured policy alone *)

Lemma Object_assign_ok h src o :
  sourceObject h src = Some o ->
  Object_assign src h
    = (Normal (fresh (dom (objects h))), set_objects (insert (fresh (dom (objects h))) o) h).
Proof.
  destruct src as [p0|]; cbn.
  - intros Hp0. unfold Object_assign.
    by rewrite run_bind, (run_readObject _ _ _ Hp0).
  - by intros [= <-].
Qed.

Lemma Object_assign_unallocated h src :
  sourceObject h src = None -> Object_assign src h = (Thrown BadReference, h).
Proof.
  destruct src as [p0|]; cbn; [|done].
  intros Hp0. unfold Object_assign, readObject. by rewrite run_bind, Hp0.
Qed.

(** Whatever is done to the copy alone leaves the store it was taken from
    as it was. *)
Lemma on_copy_preserved {A} (src : option loc) (k : loc -> M A) :
  (forall p, preserves (frame p) (k p)) ->
  preserves preserved (Object_assign src ≫= k).
Proof.
  intros Hk h. rewrite run_bind.
  destruct (sourceObject h src) as [o|] eqn:Hsrc.
  - rewrite (Object_assign_ok _ _ _ Hsrc).
    set (p := fresh (dom (objects h))).
    destruct (Hk p (set_objects (insert p o) h)) as [Ha Ho]. split.
    + intros l a Hl. by apply Ha.
    + intros q o' Hq.
      assert (q <> p) by (intros ->; by eapply fresh_object_ne).
      apply Ho; [done|]. cbn. by rewrite lookup_insert_ne.
  - rewrite (Object_assign_unallocated _ _ Hsrc). reflexivity.
Qed.

Lemma headerPolicy_preserved this opts :
  preserves preserved (headerPolicy this opts).
Proof.
  apply on_copy_preserved. intros p.
  apply preserves_bind; [apply _ | apply appendSourceList_frame |]; intros _.
  apply preserves_bind; [apply _ | apply liveReloadStep_frame |]; intros _.
  apply preserves_bind; [apply _ | apply reportEndpoint_frame |]; intros _.
  apply preserves_ret, _.
Qed.

Lemma metaPolicy_preserved this environment :
  preserves preserved (metaPolicy this environment).
Proof.
  apply on_copy_preserved. intros p.
  apply preserves_bind; [apply _ | |]; [|intros _].
  { destruct (String.eqb environment "test");
      [apply appendSourceList_frame | apply preserves_ret, _]. }
  apply preserves_bind; [apply _ | apply liveReloadStep_frame |]; intros _.
  apply preserves_ret, _.
Qed.

Lemma serialize_unchanged bps p : heap_unchanged (serialize bps p).
Proof.
  intros h. unfold serialize, readObject. rewrite run_bind.
  by destruct (objects h !! p).
Qed.

Lemma serverMiddleware_request_preserved bps this opts res :
  preserves preserved (serverMiddleware_request bps this opts res).
Proof.
  unfold serverMiddleware_request.
  destruct (negb (enabled (_config this))); [apply preserves_ret, _|].
  apply preserves_bind; [apply _ | apply headerPolicy_preserved |]; intros p.
  apply preserves_bind; [apply _ | |]; [|intros v].
  { apply heap_unchanged_preserved, serialize_unchanged. }
  destruct (String.eqb v ""); apply preserves_ret, _.
Qed.

Lemma contentFor_preserved bps this type environment :
  preserves preserved (contentFor bps this type environment).
Proof.
  unfold contentFor.
  destruct (negb (enabled (_config this))); [apply preserves_ret, _|].
  destruct (_ && _); [|apply preserves_ret, _].
  apply preserves_bind; [apply _ | |]; [|intros _].
  { apply heap_unchanged_preserved, writeWarnLine_unchanged. }
  apply preserves_bind; [apply _ | apply metaPolicy_preserved |]; intros p.
  apply preserves_bind; [apply _ | |]; [|intros v].
  { apply heap_unchanged_preserved, serialize_unchanged. }
  apply preserves_bind; [apply _ | |]; [|intros names].
  { apply heap_unchanged_preserved, unsupportedDirectives_unchanged. }
  apply preserves_bind; [apply _ | |]; [|intros _].
  { apply preserves_forEach; [apply _|]. intros name.
    apply heap_unchanged_preserved, console_log_unchanged. }
  destruct (String.eqb v ""); [|apply preserves_ret, _].
  apply preserves_bind; [apply _ | |]; [|intros _; apply preserves_ret, _].
  apply heap_unchanged_preserved, console_log_unchanged.
Qed.

(** C3: a request (header path) and a build (meta path) work on a copy of
    the configured policy and appended source lists are copied before they
    are extended, so whatever the hooks do and however they end, every
    object the store held before, [this._config.policy] among them, has its
    original properties afterwards and every array the store held before,
    the source lists of the configured policy among them, has its original
    elements; the same holds for any sequence of appends made on a copy.  A
    later request therefore finds the configuration as the first one did. *)
Theorem config_policy_never_corrupted
    (buildPolicyString : gmap loc (list string) -> object -> string)
    (this : addon) (opts : options) (res : response)
    (type environment : string) (src : option loc)
    (appends : list (string * string)) (h : store) :
  preserved h
    (snd (serverMiddleware_request buildPolicyString this opts res h)) /\
  preserved h (snd (contentFor buildPolicyString this type environment h)) /\
  preserved h
    (snd ((policyObject ← Object_assign src;
           forEach appends (fun a => appendSourceList policyObject a.1 a.2))
            h)).
Proof.
  split; [apply serverMiddleware_request_preserved|].
  split; [apply contentFor_preserved|].
  apply on_copy_preserved. intros p.
  apply preserves_forEach; [apply _|]. intros [d t].
  apply appendSourceList_frame.
Qed.

(** ** The policy objects the hooks serialize *)

Lemma join_empty_inv l : Str.join " " l = "" -> l = [] \/ l = [""].
Proof.
  destruct l as [|x [|y r]]; [by left | cbn; intros ->; by right |].
  rewrite StrFacts.join_cons by done. intros He.
  by destruct x.
Qed.

Lemma sourceBase_joined arrs o name l :
  Obj.get o name = VString (Str.join " " l) ->
  Str.join " " l <> "" ->
  exists b, sourceBase arrs o name = Normal b /\
    forall r, Str.join " " (b ++ r) = Str.join " " (l ++ r).
Proof.
  intros Hv Hne. exists (Str.split (Str.join " " l)). split.
  - by apply sourceBase_string.
  - intros r. apply join_split_join. by intros ->.
Qed.

Lemma updates_refl p o h : objects h !! p = Some o -> updates p o h h.
Proof.
  intros Hp. repeat split; [apply arrays_preserved_refl|].
  by rewrite insert_id.
Qed.

Lemma liveReloadStep_spec this h p o bc bs c s :
  objects h !! p = Some o ->
  sourceBase (arrays h) o "connect-src" = Normal bc ->
  (forall r, Str.join " " (bc ++ r) = Str.join " " (c ++ r)) ->
  sourceBase (arrays h) o "script-src" = Normal bs ->
  (forall r, Str.join " " (bs ++ r) = Str.join " " (s ++ r)) ->
  exists h',
    liveReloadStep this p h = (Normal tt, h') /\
    updates p (liveReloadObject this o c s) h h' /\
    exists bc',
      sourceBase (arrays h') (liveReloadObject this o c s) "connect-src"
        = Normal bc' /\
      forall r, Str.join " " (bc' ++ r)
                = Str.join " " ((c ++ liveReloadConnects this) ++ r).
Proof.
  intros Hp Hc Hcj Hs Hsj.
  unfold liveReloadStep, liveReloadObject, liveReloadConnects,
    liveReloadScripts.
  destruct (_liveReload this) as [lr|].
  - destruct (allowLiveReload_spec h p o lr bc bs c s Hp Hc Hcj Hs Hsj)
      as (h' & Hrun & Hu).
    exists h'. split; [done|]. split; [done|].
    rewrite sourceBase_set_other by done.
    apply sourceBase_joined; [apply ObjFacts.get_set_eq|].
    intros [He|He]%join_empty_inv.
    + apply (f_equal length) in He. rewrite length_app in He.
      cbn in He. lia.
    + apply (f_equal length) in He. rewrite length_app in He.
      cbn in He. lia.
  - exists h. split; [done|]. split; [by apply updates_refl|].
    exists bc. split; [done|]. intros r. by rewrite app_nil_r.
Qed.

Lemma includes_report_only this :
  Str.includes "Report-Only" (headerName this) = reportOnly (_config this).
Proof. unfold headerName. by destruct (reportOnly (_config this)). Qed.

Lemma run_hasProperty h p o k :
  objects h !! p = Some o -> hasProperty p k h = (Normal (Obj.has o k), h).
Proof.
  intros Hp. unfold hasProperty. by rewrite run_bind, (run_readObject _ _ _ Hp).
Qed.

Lemma reportEndpoint_spec this opts h p o bc c :
  objects h !! p = Some o ->
  (reportOnly (_config this) && negb (Obj.has o "report-uri") = true ->
   sourceBase (arrays h) o "connect-src" = Normal bc /\
   forall r, Str.join " " (bc ++ r) = Str.join " " (c ++ r)) ->
  exists h',
    reportEndpoint (headerName this) opts p h = (Normal tt, h') /\
    updates p (reportObject this opts o c) h h' /\
    (reportOnly (_config this) && negb (Obj.has o "report-uri") = false ->
     h' = h).
Proof.
  intros Hp Hc. unfold reportEndpoint, reportObject.
  rewrite includes_report_only.
  destruct (reportOnly (_config this)); cbn [andb] in *.
  - rewrite run_bind, (run_hasProperty _ _ _ _ Hp).
    destruct (Obj.has o "report-uri"); cbn [negb] in *.
    + exists h. by split; [|split; [apply updates_refl|]].
    + destruct Hc as [Hc Hcj]; [done|].
      destruct (appendSourceList_ok h p o "connect-src" (ecOrigin opts) bc Hp Hc)
        as (h1 & Hrun1 & Hu1).
      pose proof (updates_lookup _ _ _ _ Hu1) as Hp1.
      destruct (setProperty_ok h1 p _ "report-uri"
                  (VString (ecOrigin opts +:+ REPORT_PATH)) Hp1)
        as [Hrun2 Hu2].
      eexists. split; [rewrite run_bind, Hrun1; exact Hrun2|].
      split; [|done]. rewrite <- Hcj. by eapply updates_trans.
  - exists h. by split; [|split; [apply updates_refl|]].
Qed.

Lemma nonce_step h p o c s :
  objects h !! p = Some o ->
  sourceBase (arrays h) o "connect-src" = Normal c ->
  sourceBase (arrays h) o "script-src" = Normal s ->
  let o1 := Obj.set o "script-src"
              (VString (Str.join " " (s ++ [nonceSource]))) in
  exists h1,
    appendSourceList p "script-src" nonceSource h = (Normal tt, h1) /\
    updates p o1 h h1 /\
    sourceBase (arrays h1) o1 "connect-src" = Normal c /\
    exists bs, sourceBase (arrays h1) o1 "script-src" = Normal bs /\
      forall r, Str.join " " (bs ++ r)
                = Str.join " " ((s ++ [nonceSource]) ++ r).
Proof.
  intros Hp Hc Hs o1.
  destruct (appendSourceList_ok h p o "script-src" nonceSource s Hp Hs)
    as (h1 & Hrun & Hu).
  exists h1. split; [done|]. split; [done|]. split.
  - unfold o1. rewrite sourceBase_set_other by done.
    eapply sourceBase_mono; [apply Hu | done].
  - apply sourceBase_joined; [apply ObjFacts.get_set_eq|].
    by apply join_snoc_not_empty.
Qed.

Lemma updates_alloc h p o o' h' :
  objects h !! p = None ->
  updates p o' (set_objects (insert p o) h) h' ->
  arrays_preserved h h' /\ console h' = console h /\ ui h' = ui h /\
  objects h' = <[p := o']> (objects h).
Proof.
  intros Hp (Ha & Hc & Hu & Ho). repeat split; try done.
  rewrite Ho. cbn. by rewrite insert_insert_eq.
Qed.

Lemma headerPolicy_spec this opts h o0 c s :
  sourceObject h (policy (_config this)) = Some o0 ->
  sourceBase (arrays h) o0 "connect-src" = Normal c ->
  sourceBase (arrays h) o0 "script-src" = Normal s ->
  let p := fresh (dom (objects h)) in
  exists h',
    headerPolicy this opts h = (Normal p, h') /\
    arrays_preserved h h' /\ console h' = console h /\ ui h' = ui h /\
    objects h' = <[p := headerObject this opts o0 c s]> (objects h).
Proof.
  intros Hsrc Hc Hs p. unfold headerPolicy.
  rewrite run_bind, (Object_assign_ok _ _ _ Hsrc). fold p.
  set (h0 := set_objects (insert p o0) h).
  assert (Hp0 : objects h0 !! p = Some o0) by apply lookup_insert_eq.
  destruct (nonce_step h0 p o0 c s Hp0 Hc Hs)
    as (h1 & Hrun1 & Hu1 & Hc1 & bs & Hs1 & Hsj1).
  pose proof (updates_lookup _ _ _ _ Hu1) as Hp1.
  destruct (liveReloadStep_spec this h1 p _ c bs c (s ++ [nonceSource])
              Hp1 Hc1 (fun r => eq_refl) Hs1 Hsj1)
    as (h2 & Hrun2 & Hu2 & bc2 & Hc2 & Hcj2).
  pose proof (updates_lookup _ _ _ _ Hu2) as Hp2.
  destruct (reportEndpoint_spec this opts h2 p _ bc2
              (c ++ liveReloadConnects this) Hp2 (fun _ => conj Hc2 Hcj2))
    as (h3 & Hrun3 & Hu3 & _).
  exists h3. split.
  - rewrite run_bind, Hrun1, run_bind, Hrun2, run_bind, Hrun3. done.
  - apply (updates_alloc h p o0).
    + apply not_elem_of_dom, is_fresh.
    + eapply updates_trans; [|done]. by eapply updates_trans.
Qed.

Lemma metaPolicy_spec this environment h o0 c s :
  sourceObject h (policy (_config this)) = Some o0 ->
  sourceBase (arrays h) o0 "connect-src" = Normal c ->
  sourceBase (arrays h) o0 "script-src" = Normal s ->
  let p := fresh (dom (objects h)) in
  exists h',
    metaPolicy this environment h = (Normal p, h') /\
    arrays_preserved h h' /\ console h' = console h /\ ui h' = ui h /\
    objects h' = <[p := metaObject this environment o0 c s]> (objects h).
Proof.
  intros Hsrc Hc Hs p. unfold metaPolicy, metaObject.
  rewrite run_bind, (Object_assign_ok _ _ _ Hsrc). fold p.
  set (h0 := set_objects (insert p o0) h).
  assert (Hp0 : objects h0 !! p = Some o0) by apply lookup_insert_eq.
  assert (Hfresh : objects h !! p = None) by apply not_elem_of_dom, is_fresh.
  destruct (String.eqb environment "test").
  - destruct (nonce_step h0 p o0 c s Hp0 Hc Hs)
      as (h1 & Hrun1 & Hu1 & Hc1 & bs & Hs1 & Hsj1).
    pose proof (updates_lookup _ _ _ _ Hu1) as Hp1.
    destruct (liveReloadStep_spec this h1 p _ c bs c (s ++ [nonceSource])
                Hp1 Hc1 (fun r => eq_refl) Hs1 Hsj1)
      as (h2 & Hrun2 & Hu2 & _).
    exists h2. split.
    + by rewrite run_bind, Hrun1, run_bind, Hrun2.
    + apply (updates_alloc h p o0); [done|]. by eapply updates_trans.
  - destruct (liveReloadStep_spec this h0 p o0 c s c s
                Hp0 Hc (fun r => eq_refl) Hs (fun r => eq_refl))
      as (h2 & Hrun2 & Hu2 & _).
    exists h2. split.
    + by rewrite run_bind, run_ret, run_bind, Hrun2.
    + by apply (updates_alloc h p o0).
Qed.

(** ** The header *)

Lemma run_serialize bps h p o :
  objects h !! p = Some o ->
  serialize bps p h = (Normal (bps (arrays h) o), h).
Proof.
  intros Hp. unfold serialize.
  by rewrite run_bind, (run_readObject _ _ _ Hp).
Qed.

(** C8: when the serialized policy is empty the request handler emits
    nothing: it returns normally, the response it hands on is the response
    it was given, with no header set and none removed. *)
Theorem empty_policy_passes_through
    (buildPolicyString : gmap loc (list string) -> object -> string)
    this opts (res : response) h p h1 o :
  enabled (_config this) = true ->
  headerPolicy this opts h = (Normal p, h1) ->
  objects h1 !! p = Some o ->
  buildPolicyString (arrays h1) o = "" ->
  serverMiddleware_request buildPolicyString this opts res h = (Normal res, h1).
Proof.
  intros Hen Hrun Hp Hempty. unfold serverMiddleware_request.
  rewrite Hen. cbn [negb]. rewrite run_bind, Hrun.
  by rewrite run_bind, (run_serialize _ _ _ _ Hp), Hempty.
Qed.

Lemma empty_policy_passes_through_witness :
  let res : response := {[ CSP_HEADER := "frame-ancestors 'none'" ]} in
  fst (serverMiddleware_request (fun _ _ => "") (report_only_addon 0)
         local_options res store_connect_script)
  = Normal res.
Proof.
  intros res.
  rewrite (empty_policy_passes_through (fun _ _ => "") (report_only_addon 0)
             local_options res store_connect_script 1
             (snd (headerPolicy (report_only_addon 0) local_options
                     store_connect_script))
             [("connect-src", VString "'self' http://localhost:4200");
              ("script-src", VString "'self' 'nonce-abcdefg'");
              ("report-uri", VString "http://localhost:4200/csp-report")]);
    reflexivity.
Defined.

(** With a policy that serializes to something, both header names are
    cleared and the chosen one is set, with its [X-] twin. *)
Example request_sets_headers :
  fst (serverMiddleware_request buildPolicyString_spec (report_only_addon 0)
         local_options {[ CSP_HEADER := "frame-ancestors 'none'" ]}
         store_connect_script)
  = Normal
      {[ CSP_HEADER_REPORT_ONLY :=
           "connect-src 'self' http://localhost:4200; script-src 'self' 'nonce-abcdefg'; report-uri http://localhost:4200/csp-report";
         "X-Content-Security-Policy-Report-Only" :=
           "connect-src 'self' http://localhost:4200; script-src 'self' 'nonce-abcdefg'; report-uri http://localhost:4200/csp-report" ]}.
Proof. reflexivity. Qed.

(** ** The test nonce *)

Lemma get_liveReloadObject_script this o c s :
  Obj.get (liveReloadObject this o c s) "script-src"
  = match _liveReload this with
    | Some _ => VString (Str.join " " (s ++ liveReloadScripts this))
    | None => Obj.get o "script-src"
    end.
Proof.
  unfold liveReloadObject. destruct (_liveReload this); [|done].
  apply ObjFacts.get_set_eq.
Qed.

Lemma get_reportObject_script this opts o c :
  Obj.get (reportObject this opts o c) "script-src" = Obj.get o "script-src".
Proof.
  unfold reportObject. destruct (_ && _); [|done].
  by rewrite !ObjFacts.get_set_ne.
Qed.

Lemma get_nonce_liveReload this o c s :
  Obj.get
    (liveReloadObject this
       (Obj.set o "script-src" (VString (Str.join " " (s ++ [nonceSource]))))
       c (s ++ [nonceSource])) "script-src"
  = VString (Str.join " " (s ++ [nonceSource] ++ liveReloadScripts this)).
Proof.
  rewrite get_liveReloadObject_script. unfold liveReloadScripts.
  destruct (_liveReload this).
  - by rewrite <- app_assoc.
  - by rewrite ObjFacts.get_set_eq, app_nil_r.
Qed.



(** ** Delivery by meta tag *)

Lemma forEach_console_log (f : string -> string) names h :
  forEach names (fun name => console_log (f name)) h
  = (Normal tt,
     Store (arrays h) (objects h) (console h ++ map f names) (ui h)).
Proof.
  revert h. induction names as [|x names IH]; intros h; cbn [forEach map].
  - rewrite run_ret, app_nil_r. by destruct h.
  - rewrite run_bind. unfold console_log at 1. rewrite IH. cbn.
    by rewrite <- app_assoc.
Qed.

Lemma lookup_liveReloadObject this o c s k :
  k <> "connect-src" -> k <> "script-src" ->
  Obj.lookup (liveReloadObject this o c s) k = Obj.lookup o k.
Proof.
  intros Hc Hs. unfold liveReloadObject. destruct (_liveReload this); [|done].
  rewrite !ObjFacts.lookup_set.
  destruct (String.eqb_spec "script-src" k); [done|].
  by destruct (String.eqb_spec "connect-src" k).
Qed.

Lemma lookup_metaObject this environment o0 c s k :
  k <> "connect-src" -> k <> "script-src" ->
  Obj.lookup (metaObject this environment o0 c s) k = Obj.lookup o0 k.
Proof.
  intros Hc Hs. unfold metaObject.
  destruct (String.eqb environment "test");
    rewrite lookup_liveReloadObject by done; [|done].
  rewrite ObjFacts.lookup_set.
  by destruct (String.eqb_spec "script-src" k).
Qed.


Lemma valueString_preserved h h' v :
  arrays_preserved h h' ->
  valueString (arrays h) v <> "" ->
  valueString (arrays h') v = valueString (arrays h) v.
Proof.
  intros Hpres. destruct v as [| |?|?|?|l|]; cbn; try done.
  destruct (arrays h !! l) as [a|] eqn:Hl; [|done].
  by rewrite (Hpres _ _ Hl).
Qed.

Lemma clause_in arrs (o : object) k v :
  In (k, v) o -> valueString arrs v <> "" ->
  In (k +:+ " " +:+ valueString arrs v) (policyClauses arrs o).
Proof.
  intros Hin Hne. unfold policyClauses. apply in_flat_map.
  exists (k, v). split; [done|].
  apply String.eqb_neq in Hne as ->. by left.
Qed.





(** ** The report endpoint *)

Lemma has_after_nonce_liveReload this o0 c s k :
  k <> "connect-src" -> k <> "script-src" ->
  Obj.lookup
    (liveReloadObject this
       (Obj.set o0 "script-src"
          (VString (Str.join " " (s ++ [nonceSource]))))
       c (s ++ [nonceSource])) k
  = Obj.lookup o0 k.
Proof.
  intros Hc Hs. rewrite lookup_liveReloadObject by done.
  rewrite ObjFacts.lookup_set. by destruct (String.eqb_spec "script-src" k).
Qed.

Lemma get_after_nonce_liveReload_connect this o0 c s :
  Obj.get
    (liveReloadObject this
       (Obj.set o0 "script-src"
          (VString (Str.join " " (s ++ [nonceSource]))))
       c (s ++ [nonceSource])) "connect-src"
  = match _liveReload this with
    | Some _ => VString (Str.join " " (c ++ liveReloadConnects this))
    | None => Obj.get o0 "connect-src"
    end.
Proof.
  unfold liveReloadObject. destruct (_liveReload this).
  - by rewrite ObjFacts.get_set_ne, ObjFacts.get_set_eq.
  - by rewrite ObjFacts.get_set_ne.
Qed.

Lemma headerObject_cases this opts o0 c s :
  let o2 := liveReloadObject this
              (Obj.set o0 "script-src"
                 (VString (Str.join " " (s ++ [nonceSource]))))
              c (s ++ [nonceSource]) in
  headerObject this opts o0 c s
  = if reportOnly (_config this) && negb (Obj.has o0 "report-uri")
    then Obj.set
           (Obj.set o2 "connect-src"
              (VString (Str.join " "
                 ((c ++ liveReloadConnects this) ++ [ecOrigin opts]))))
           "report-uri" (VString (ecOrigin opts +:+ REPORT_PATH))
    else o2.
Proof.
  intros o2. unfold headerObject, reportObject. fold o2.
  assert (Obj.has o2 "report-uri" = Obj.has o0 "report-uri") as ->; [|done].
  unfold Obj.has, o2. by rewrite has_after_nonce_liveReload.
Qed.

(** C7: on the header path the report endpoint is injected exactly when
    report-only mode is on and [report-uri] is not a key of the working
    policy, which is a key of the configured policy or not at all.  The
    policy object the request handler builds and serializes then has the
    origin, [https://] or [http://] by the TLS flag, then the host or
    [localhost] when none is set, then [:] and the port, appended to
    [connect-src] after what live reload appended, and [report-uri] set to
    that origin followed by [/csp-report].  Otherwise [report-uri] is what
    the configured policy has, there or not, and [connect-src] gets no
    origin.  On the meta path [report-uri] is always what the configured
    policy has. *)
Theorem report_endpoint_on_header_path
    (buildPolicyString : gmap loc (list string) -> object -> string)
    this opts (res : response) environment h o0 c s :
  sourceObject h (policy (_config this)) = Some o0 ->
  sourceBase (arrays h) o0 "connect-src" = Normal c ->
  sourceBase (arrays h) o0 "script-src" = Normal s ->
  let origin :=
    (if opt_ssl opts then "https://" else "http://") +:+
    match opt_host opts with
    | Some host => if String.eqb host "" then "localhost" else host
    | None => "localhost"
    end +:+ ":" +:+ Str.of_N (opt_port opts) in
  let injected :=
    reportOnly (_config this) && negb (Obj.has o0 "report-uri") in
  (exists p h' o,
     headerPolicy this opts h = (Normal p, h') /\
     objects h' !! p = Some o /\
     (enabled (_config this) = true ->
      buildPolicyString (arrays h') o <> "" ->
      exists res' : response,
        serverMiddleware_request buildPolicyString this opts res h
          = (Normal res', h') /\
        res' !! headerName this = Some (buildPolicyString (arrays h') o)) /\
     (injected = true ->
      Obj.get o "report-uri" = VString (origin +:+ "/csp-report") /\
      Obj.get o "connect-src"
        = VString (Str.join " " (c ++ liveReloadConnects this ++ [origin]))) /\
     (injected = false ->
      Obj.lookup o "report-uri" = Obj.lookup o0 "report-uri" /\
      Obj.get o "connect-src"
        = match _liveReload this with
          | Some _ => VString (Str.join " " (c ++ liveReloadConnects this))
          | None => Obj.get o0 "connect-src"
          end)) /\
  (exists p h' o,
     metaPolicy this environment h = (Normal p, h') /\
     objects h' !! p = Some o /\
     Obj.lookup o "report-uri" = Obj.lookup o0 "report-uri").
Proof.
  intros Hsrc Hc Hs origin injected. split.
  - destruct (headerPolicy_spec this opts h o0 c s Hsrc Hc Hs)
      as (h' & Hrun & _ & _ & _ & Ho).
    set (p := fresh (dom (objects h))) in *.
    assert (Hp : objects h' !! p = Some (headerObject this opts o0 c s))
      by (rewrite Ho; apply lookup_insert_eq).
    exists p, h', (headerObject this opts o0 c s).
    split; [done|]. split; [done|]. split; [|split].
    + intros Hen Hne. unfold serverMiddleware_request.
      rewrite Hen. cbn [negb]. rewrite run_bind, Hrun.
      rewrite run_bind, (run_serialize _ _ _ _ Hp).
      apply String.eqb_neq in Hne as ->. rewrite run_ret.
      eexists. split; [reflexivity|].
      unfold headerName. destruct (reportOnly (_config this));
        by simplify_map_eq.
    + intros Hinj. unfold injected in Hinj.
      rewrite headerObject_cases. cbv zeta. rewrite Hinj.
      split; [apply ObjFacts.get_set_eq|].
      rewrite ObjFacts.get_set_ne, ObjFacts.get_set_eq by done.
      by rewrite <- app_assoc.
    + intros Hinj. unfold injected in Hinj.
      rewrite headerObject_cases. cbv zeta. rewrite Hinj.
      split; [by apply has_after_nonce_liveReload|].
      apply get_after_nonce_liveReload_connect.
  - destruct (metaPolicy_spec this environment h o0 c s Hsrc Hc Hs)
      as (h' & Hrun & _ & _ & _ & Ho).
    eexists _, h', _. split; [exact Hrun|].
    split; [rewrite Ho; apply lookup_insert_eq|].
    by apply lookup_metaObject.
Qed.

Lemma report_endpoint_on_header_path_witness :
  fst ((p ← headerPolicy (report_only_addon 0) local_options;
        getProperty p "report-uri") store_connect_script)
    = Normal (VString "http://localhost:4200/csp-report") /\
  fst ((p ← headerPolicy (report_only_addon 0) local_options;
        getProperty p "connect-src") store_connect_script)
    = Normal (VString "'self' http://localhost:4200").
Proof.
  destruct (report_endpoint_on_header_path buildPolicyString_spec
              (report_only_addon 0) local_options ∅ "test"
              store_connect_script
              [("connect-src", VArray 0); ("script-src", VArray 1)]
              ["'self'"] ["'self'"])
    as [(p & h' & o & Hrun & Hp & _ & Hyes & _) _]; [reflexivity..|].
  destruct Hyes as [Hru Hcs]; [reflexivity|].
  split; rewrite run_bind, Hrun, (run_getProperty _ _ _ _ Hp).
  - by rewrite Hru.
  - by rewrite Hcs.
Defined.

(** ** The header path with the serializer of the spec *)

(** With the serializer as the spec describes it, the handler never meets
    an empty policy when the configured one is well formed: [script-src]
    has the nonce at least. *)
Remark header_policy_not_empty this opts h o0 c s :
  sourceObject h (policy (_config this)) = Some o0 ->
  sourceBase (arrays h) o0 "connect-src" = Normal c ->
  sourceBase (arrays h) o0 "script-src" = Normal s ->
  exists p h' o,
    headerPolicy this opts h = (Normal p, h') /\
    objects h' !! p = Some o /\
    buildPolicyString_spec (arrays h') o <> "".
Proof.
  intros Hsrc Hc Hs.
  destruct (headerPolicy_spec this opts h o0 c s Hsrc Hc Hs)
    as (h' & Hrun & _ & _ & _ & Ho).
  eexists _, h', _. split; [exact Hrun|].
  split; [rewrite Ho; apply lookup_insert_eq|].
  set (o := headerObject this opts o0 c s).
  set (l := s ++ [nonceSource] ++ liveReloadScripts this).
  assert (Hget : Obj.get o "script-src" = VString (Str.join " " l)).
  { unfold o, headerObject.
    by rewrite get_reportObject_script, get_nonce_liveReload. }
  assert (Hl : Str.join " " l <> "").
  { intros [He|He]%join_empty_inv; unfold l in He.
    - by destruct s.
    - assert (Hin : In nonceSource [""])
        by (rewrite <- He; apply in_or_app; right; by left).
      by destruct Hin as [?|[]]. }
  assert (Hin : In ("script-src" +:+ " " +:+ Str.join " " l)
                  (policyClauses (arrays h') o)).
  { apply (clause_in (arrays h') o "script-src" (VString (Str.join " " l)));
      [|done].
    apply ObjFacts.lookup_In. unfold Obj.get in Hget.
    by destruct (Obj.lookup o "script-src") as [v|]; [rewrite Hget|]. }
  intros He. pose proof (StrFacts.includes_join "; " _ _ Hin) as Hinc.
  fold (buildPolicyString_spec (arrays h') o) in Hinc.
  by rewrite He in Hinc.
Qed.

(** Two requests in a row: the second one emits what the first one did. *)
Example second_request_same_header :
  let request :=
    serverMiddleware_request buildPolicyString_spec (report_only_addon 0)
      local_options ∅ in
  fst ((request;; request) store_connect_script)
  = fst (request store_connect_script).
Proof. reflexivity. Qed.

(** * More on the code *)

(** ** More on [appendSourceList] *)

Lemma keys_set o k v :
  map fst (Obj.set o k v)
  = if Obj.has o k then map fst o else map fst o ++ [k].
Proof.
  unfold Obj.has. induction o as [|[k0 v0] r IH]; cbn [Obj.set Obj.lookup].
  - done.
  - destruct (String.eqb k0 k); cbn [map fst]; [done|].
    rewrite IH. by destruct (Obj.lookup r k).
Qed.

Lemma forEach_appends p name rest :
  forall x h o b base,
    objects h !! p = Some o ->
    sourceBase (arrays h) o name = Normal b ->
    (forall r, Str.join " " (b ++ r) = Str.join " " (base ++ r)) ->
    Forall (fun t => t <> "") (x :: rest) ->
    exists h',
      forEach (x :: rest) (fun t => appendSourceList p name t) h
        = (Normal tt, h') /\
      updates p
        (Obj.set o name (VString (Str.join " " (base ++ x :: rest)))) h h'.
Proof.
  induction rest as [|y rest IH]; intros x h o b base Hp Hb Hbj Hne;
    destruct (appendSourceList_ok h p o name x b Hp Hb) as (h1 & Hrun1 & Hu1).
  - exists h1. split.
    + cbn [forEach]. by rewrite run_bind, Hrun1.
    + by rewrite <- Hbj.
  - pose proof (updates_lookup _ _ _ _ Hu1) as Hp1.
    apply Forall_cons in Hne as [Hx Hne].
    destruct (sourceBase_appended (arrays h1) o name b [] x Hx)
      as (b' & Hb' & Hbj').
    cbn [app] in Hb', Hbj'.
    destruct (IH y h1 _ b' (base ++ [x]) Hp1 Hb') as (h2 & Hrun2 & Hu2).
    + intros r. by rewrite Hbj', (Hbj (x :: r)), <- app_assoc.
    + done.
    + exists h2. split.
      * change (forEach (x :: y :: rest) (fun t => appendSourceList p name t))
          with (appendSourceList p name x;;
                forEach (y :: rest) (fun t => appendSourceList p name t)).
        by rewrite run_bind, Hrun1.
      * eapply updates_trans; [done|].
        rewrite ObjFacts.set_set in Hu2. by rewrite <- app_assoc in Hu2.
Qed.

(** X1: a directive stored as a non-empty string keeps its text, whatever
    spaces it has, and gets one space and the new source after it. *)
Theorem appendSourceList_string h p o name s t :
  objects h !! p = Some o ->
  Obj.get o name = VString s ->
  s <> "" ->
  exists h',
    appendSourceList p name t h = (Normal tt, h') /\
    getProperty p name h' = (Normal (VString (s +:+ " " +:+ t)), h').
Proof.
  intros Hp Hv Hs.
  destruct (appendSourceList_ok h p o name t (Str.split s) Hp)
    as (h' & Hrun & Hu); [by apply sourceBase_string|].
  exists h'. split; [done|].
  rewrite (run_getProperty _ _ _ _ (updates_lookup _ _ _ _ Hu)).
  by rewrite ObjFacts.get_set_eq, StrFacts.join_split_snoc.
Qed.

Lemma appendSourceList_string_witness :
  exists h',
    appendSourceList 0 "script-src" "b.com"
      (store_script (VString "'self'  a.com")) = (Normal tt, h') /\
    getProperty 0 "script-src" h'
      = (Normal (VString "'self'  a.com b.com"), h').
Proof.
  apply (appendSourceList_string (store_script (VString "'self'  a.com")) 0
           [("script-src", VString "'self'  a.com")] "script-src"
           "'self'  a.com" "b.com"); [reflexivity | reflexivity | discriminate].
Defined.

(** X2: appends to one directive compose from left to right on the
    accumulating object: after the non-empty sources [ts] have been appended
    one by one, the directive holds the list it stood for at the start
    followed by all of [ts] in order, duplicates included, and every other
    directive is as it was. *)
Theorem appendSourceList_sequence h p o name base ts :
  objects h !! p = Some o ->
  sourceBase (arrays h) o name = Normal base ->
  ts <> [] ->
  Forall (fun t => t <> "") ts ->
  exists h',
    forEach ts (fun t => appendSourceList p name t) h = (Normal tt, h') /\
    getProperty p name h'
      = (Normal (VString (Str.join " " (base ++ ts))), h') /\
    forall k, k <> name -> getProperty p k h' = (Normal (Obj.get o k), h').
Proof.
  intros Hp Hb Hts Hne. destruct ts as [|x rest]; [done|].
  destruct (forEach_appends p name rest x h o base base Hp Hb)
    as (h' & Hrun & Hu); [done..|].
  pose proof (updates_lookup _ _ _ _ Hu) as Hp'.
  exists h'. split; [done|]. split.
  - by rewrite (run_getProperty _ _ _ _ Hp'), ObjFacts.get_set_eq.
  - intros k Hk.
    by rewrite (run_getProperty _ _ _ _ Hp'), ObjFacts.get_set_ne.
Qed.

Lemma appendSourceList_sequence_witness :
  exists h',
    forEach ["b.com"; "c.com"; "b.com"]
      (fun t => appendSourceList 0 "connect-src" t) store_default_array
      = (Normal tt, h') /\
    getProperty 0 "connect-src" h'
      = (Normal (VString "'self' a.com b.com c.com b.com"), h').
Proof.
  destruct (appendSourceList_sequence store_default_array 0
              [("default-src", VArray 0)] "connect-src" ["'self'"; "a.com"]
              ["b.com"; "c.com"; "b.com"])
    as (h' & Hrun & Hget & _);
    [reflexivity | reflexivity | discriminate
    | repeat constructor; discriminate |].
  exists h'. split; [exact Hrun | exact Hget].
Defined.

(** X3: appending the empty source to a directive that stands for no
    source at all, with no [default-src] to fall back on, stores the empty
    string, and from then on every append to that directive throws
    ['Unknown source list value']. *)
Theorem appendSourceList_empty_source h p o name :
  objects h !! p = Some o ->
  sourceBase (arrays h) o name = Normal [] ->
  exists h1,
    appendSourceList p name "" h = (Normal tt, h1) /\
    getProperty p name h1 = (Normal (VString ""), h1) /\
    forall t, fst (appendSourceList p name t h1) = Thrown UnknownSourceListValue.
Proof.
  intros Hp Hb.
  destruct (appendSourceList_ok h p o name "" [] Hp Hb) as (h1 & Hrun & Hu).
  pose proof (updates_lookup _ _ _ _ Hu) as Hp1. cbn in Hp1.
  exists h1. split; [done|]. split.
  - by rewrite (run_getProperty _ _ _ _ Hp1), ObjFacts.get_set_eq.
  - intros t.
    destruct (appendSourceList_throws h1 p _ name t UnknownSourceListValue Hp1)
      as (h2 & -> & _); [|done].
    unfold sourceBase. by rewrite ObjFacts.get_set_eq.
Qed.

Lemma appendSourceList_empty_source_witness :
  exists h1,
    appendSourceList 0 "script-src" "" (store_script VNull) = (Normal tt, h1) /\
    fst (appendSourceList 0 "script-src" "b.com" h1)
      = Thrown UnknownSourceListValue.
Proof.
  destruct (appendSourceList_empty_source (store_script VNull) 0
              [("script-src", VNull)] "script-src")
    as (h1 & Hrun & _ & Hnext); [reflexivity | reflexivity |].
  exists h1. split; [exact Hrun | apply Hnext].
Defined.

(** X4: an append to a directive whose name does not start with a digit
    never removes or reorders directives: afterwards the object has the
    directive names it had, in the same order, with the appended-to
    directive added last when it was not there. *)
Theorem appendSourceList_keys h p o name t h' :
  Str.starts_with_digit name = false ->
  objects h !! p = Some o ->
  appendSourceList p name t h = (Normal tt, h') ->
  exists o',
    objects h' !! p = Some o' /\
    map fst o' = if Obj.has o name then map fst o else map fst o ++ [name].
Proof.
  intros _ Hp Hrun.
  destruct (appendSourceList_spec h p o name t Hp)
    as (h2 & Hrun2 & _ & _ & _ & Ho).
  rewrite Hrun in Hrun2.
  destruct (sourceBase (arrays h) o name) as [base|e]; [|done].
  injection Hrun2 as <-. eexists. split.
  - rewrite Ho. apply lookup_insert_eq.
  - apply keys_set.
Qed.

Lemma appendSourceList_keys_witness :
  (exists o',
     objects (snd (appendSourceList 0 "connect-src" "b.com"
                     store_connect_script)) !! 0 = Some o' /\
     map fst o' = ["connect-src"; "script-src"]) /\
  (exists o',
     objects (snd (appendSourceList 0 "img-src" "b.com"
                     store_connect_script)) !! 0 = Some o' /\
     map fst o' = ["connect-src"; "script-src"; "img-src"]).
Proof.
  split.
  - apply (appendSourceList_keys store_connect_script 0
             [("connect-src", VArray 0); ("script-src", VArray 1)]
             "connect-src" "b.com"); reflexivity.
  - apply (appendSourceList_keys store_connect_script 0
             [("connect-src", VArray 0); ("script-src", VArray 1)]
             "img-src" "b.com"); reflexivity.
Defined.

(** ** More on the request handler *)

(** X5: when the policy serializes to something, the handler hands on a
    response in which the chosen header, [Content-Security-Policy-Report-Only]
    in report-only mode and [Content-Security-Policy] otherwise, and its
    [X-] twin carry the serialized policy, the other header name and its
    [X-] twin are absent, and every other header is as it came. *)
Theorem request_headers
    (buildPolicyString : gmap loc (list string) -> object -> string)
    this opts (res : response) h p h1 o :
  enabled (_config this) = true ->
  headerPolicy this opts h = (Normal p, h1) ->
  objects h1 !! p = Some o ->
  buildPolicyString (arrays h1) o <> "" ->
  let value := buildPolicyString (arrays h1) o in
  let other := if reportOnly (_config this) then CSP_HEADER
               else CSP_HEADER_REPORT_ONLY in
  exists res' : response,
    serverMiddleware_request buildPolicyString this opts res h
      = (Normal res', h1) /\
    res' !! headerName this = Some value /\
    res' !! ("X-" +:+ headerName this) = Some value /\
    res' !! other = None /\
    res' !! ("X-" +:+ other) = None /\
    forall k, k <> CSP_HEADER -> k <> CSP_HEADER_REPORT_ONLY ->
              k <> "X-" +:+ CSP_HEADER -> k <> "X-" +:+ CSP_HEADER_REPORT_ONLY ->
              res' !! k = res !! k.
Proof.
  intros Hen Hrun Hp Hne value other. unfold serverMiddleware_request.
  rewrite Hen. cbn [negb]. rewrite run_bind, Hrun.
  rewrite run_bind, (run_serialize _ _ _ _ Hp).
  apply String.eqb_neq in Hne as ->. rewrite run_ret. fold value.
  eexists. split; [reflexivity|].
  unfold other, headerName. destruct (reportOnly (_config this));
    repeat split; try (intros k ? ? ? ?); by simplify_map_eq.
Qed.

Lemma request_headers_witness :
  let res : response :=
    {[ CSP_HEADER := "frame-ancestors 'none'"; "Server" := "express" ]} in
  exists res' : response,
    fst (serverMiddleware_request buildPolicyString_spec (report_only_addon 0)
           local_options res store_connect_script) = Normal res' /\
    res' !! CSP_HEADER = None /\
    res' !! "Server" = Some "express" /\
    res' !! CSP_HEADER_REPORT_ONLY
      = Some "connect-src 'self' http://localhost:4200; script-src 'self' 'nonce-abcdefg'; report-uri http://localhost:4200/csp-report".
Proof.
  intros res.
  destruct (request_headers buildPolicyString_spec (report_only_addon 0)
              local_options res store_connect_script 1
              (snd (headerPolicy (report_only_addon 0) local_options
                      store_connect_script))
              [("connect-src", VString "'self' http://localhost:4200");
               ("script-src", VString "'self' 'nonce-abcdefg'");
               ("report-uri", VString "http://localhost:4200/csp-report")])
    as (res' & Hrun & Hh & _ & Ho & _ & Hk);
    [reflexivity | reflexivity | reflexivity | discriminate |].
  exists res'. split; [by rewrite Hrun|]. split; [exact Ho|].
  split; [|exact Hh]. by rewrite Hk.
Defined.

Lemma headerPolicy_throws this opts h o0 e :
  sourceObject h (policy (_config this)) = Some o0 ->
  sourceBase (arrays h) o0 "script-src" = Thrown e ->
  fst (headerPolicy this opts h) = Thrown e.
Proof.
  intros Hsrc Hs. unfold headerPolicy.
  rewrite run_bind, (Object_assign_ok _ _ _ Hsrc).
  set (p := fresh (dom (objects h))).
  destruct (appendSourceList_throws (set_objects (insert p o0) h) p o0
              "script-src" nonceSource e) as (h1 & Hrun & _);
    [apply lookup_insert_eq | done |].
  by rewrite run_bind, Hrun.
Qed.

Lemma metaPolicy_test_throws this h o0 e :
  sourceObject h (policy (_config this)) = Some o0 ->
  sourceBase (arrays h) o0 "script-src" = Thrown e ->
  fst (metaPolicy this "test" h) = Thrown e.
Proof.
  intros Hsrc Hs. unfold metaPolicy.
  rewrite run_bind, (Object_assign_ok _ _ _ Hsrc).
  set (p := fresh (dom (objects h))).
  destruct (appendSourceList_throws (set_objects (insert p o0) h) p o0
              "script-src" nonceSource e) as (h1 & Hrun & _);
    [apply lookup_insert_eq | done |].
  cbn [String.eqb Ascii.eqb Bool.eqb]. by rewrite run_bind, Hrun.
Qed.

(** X6: a configured policy whose [script-src] cannot be appended to (a
    value that is not a source list, or an empty one over a [default-src]
    that is a raw string) makes the enabled request handler throw that
    error on every request, whatever the options, and makes [contentFor]
    throw it for the head of a meta-delivered test build; no header and no
    tag comes out. *)
Theorem hooks_throw_on_bad_script_src
    (buildPolicyString : gmap loc (list string) -> object -> string)
    this opts (res : response) h o0 e :
  enabled (_config this) = true ->
  sourceObject h (policy (_config this)) = Some o0 ->
  sourceBase (arrays h) o0 "script-src" = Thrown e ->
  fst (serverMiddleware_request buildPolicyString this opts res h) = Thrown e /\
  (In DELIVERY_META (delivery (_config this)) ->
   fst (contentFor buildPolicyString this "head" "test" h) = Thrown e).
Proof.
  intros Hen Hsrc Hs. split.
  - unfold serverMiddleware_request. rewrite Hen. cbn [negb].
    rewrite run_bind.
    pose proof (headerPolicy_throws this opts h o0 e Hsrc Hs) as Hthrow.
    revert Hthrow.
    destruct (headerPolicy this opts h) as [[p|e'] h1]; cbn [fst]; [done|].
    by intros [= ->].
  - intros Hmeta. unfold contentFor. rewrite Hen. cbn [negb].
    assert (existsb (String.eqb DELIVERY_META) (delivery (_config this))
            = true) as ->.
    { apply existsb_exists. exists DELIVERY_META. split; [done|].
      apply String.eqb_refl. }
    cbn [andb String.eqb Ascii.eqb Bool.eqb].
    rewrite run_bind. unfold writeWarnLine at 1. rewrite run_bind.
    set (hw := set_ui _ h).
    pose proof (metaPolicy_test_throws this hw o0 e Hsrc Hs) as Hthrow.
    revert Hthrow.
    destruct (metaPolicy this "test" hw) as [[p|e'] h1]; cbn [fst]; [done|].
    by intros [= ->].
Qed.

Lemma hooks_throw_on_bad_script_src_witness :
  fst (serverMiddleware_request buildPolicyString_spec (report_only_addon 0)
         local_options ∅ store_default_string) = Thrown TypeError /\
  fst (contentFor buildPolicyString_spec (meta_addon 0 None) "head" "test"
         store_default_string) = Thrown TypeError.
Proof.
  split.
  - apply (hooks_throw_on_bad_script_src buildPolicyString_spec
             (report_only_addon 0) local_options ∅ store_default_string
             [("default-src", VString "'self' a.com")] TypeError);
      reflexivity.
  - apply (hooks_throw_on_bad_script_src buildPolicyString_spec
             (meta_addon 0 None) local_options ∅ store_default_string
             [("default-src", VString "'self' a.com")] TypeError);
      [reflexivity | reflexivity | reflexivity | left; reflexivity].
Defined.

Lemma sourceObject_preserved h h' src o :
  objects_preserved h h' ->
  sourceObject h src = Some o -> sourceObject h' src = Some o.
Proof. intros Hpres. destruct src as [p0|]; cbn; [apply Hpres | done]. Qed.

Lemma headerPolicyBuilds_preserved this opts h h' o0 c s :
  sourceObject h (policy (_config this)) = Some o0 ->
  sourceBase (arrays h) o0 "connect-src" = Normal c ->
  sourceBase (arrays h) o0 "script-src" = Normal s ->
  preserved h h' ->
  headerPolicyBuilds this opts h' (headerObject this opts o0 c s).
Proof.
  intros Hsrc Hc Hs [Ha Ho].
  destruct (headerPolicy_spec this opts h' o0 c s)
    as (h2 & Hrun & _ & _ & _ & Hobj).
  - by eapply sourceObject_preserved.
  - by eapply sourceBase_mono.
  - by eapply sourceBase_mono.
  - eexists _, h2. split; [exact Hrun|]. rewrite Hobj. apply lookup_insert_eq.
Qed.

(** X7: the policy a request builds does not depend on what was served
    before: started after an earlier request, or after an earlier
    [contentFor], the handler builds, in a new object, the very policy it
    builds when started first. *)
Theorem headerPolicy_repeatable
    (buildPolicyString : gmap loc (list string) -> object -> string)
    this opts (res : response) type environment h o0 c s :
  sourceObject h (policy (_config this)) = Some o0 ->
  sourceBase (arrays h) o0 "connect-src" = Normal c ->
  sourceBase (arrays h) o0 "script-src" = Normal s ->
  exists o,
    headerPolicyBuilds this opts h o /\
    headerPolicyBuilds this opts
      (snd (serverMiddleware_request buildPolicyString this opts res h)) o /\
    headerPolicyBuilds this opts
      (snd (contentFor buildPolicyString this type environment h)) o.
Proof.
  intros Hsrc Hc Hs. exists (headerObject this opts o0 c s).
  split; [|split];
    apply (headerPolicyBuilds_preserved this opts h _ o0 c s Hsrc Hc Hs).
  - reflexivity.
  - apply serverMiddleware_request_preserved.
  - apply contentFor_preserved.
Qed.

Lemma headerPolicy_repeatable_witness :
  let this := report_only_addon 0 in
  let o := [("connect-src", VString "'self' http://localhost:4200");
            ("script-src", VString "'self' 'nonce-abcdefg'");
            ("report-uri", VString "http://localhost:4200/csp-report")] in
  headerPolicyBuilds this local_options store_connect_script o /\
  headerPolicyBuilds this local_options
    (snd (serverMiddleware_request buildPolicyString_spec this local_options
            ∅ store_connect_script)) o.
Proof.
  intros this o.
  destruct (headerPolicy_repeatable buildPolicyString_spec this local_options
              ∅ "head" "test" store_connect_script
              [("connect-src", VArray 0); ("script-src", VArray 1)]
              ["'self'"] ["'self'"])
    as (o' & H1 & H2 & _); [reflexivity..|].
  assert (o' = o) as ->.
  { destruct H1 as (p & h' & Hrun & Hp).
    assert (Hfst : p = 1) by (by apply (f_equal fst) in Hrun; injection Hrun).
    assert (Hsnd : h' = snd (headerPolicy this local_options
                               store_connect_script))
      by (by apply (f_equal snd) in Hrun).
    subst p h'. vm_compute in Hp. by injection Hp. }
  by split.
Defined.

(** X8: what [serverMiddleware] stores for live reload has the host under
    [host], where [allowLiveReload] does not look: with live reload on,
    the handler appends [localhost] and [0.0.0.0] with the live-reload port
    after the nonce, and the configured live-reload host never appears,
    whatever it is. *)
Theorem liveReloadHost_dropped this opts h o0 c s :
  opt_liveReload opts = true ->
  sourceObject h (policy (_config this)) = Some o0 ->
  sourceBase (arrays h) o0 "connect-src" = Normal c ->
  sourceBase (arrays h) o0 "script-src" = Normal s ->
  let port := Str.of_N (opt_liveReloadPort opts) in
  exists p h',
    headerPolicy (serverMiddleware this opts) opts h = (Normal p, h') /\
    getProperty p "script-src" h'
      = (Normal (VString (Str.join " "
                   (s ++ ["'nonce-abcdefg'"; "localhost:" +:+ port;
                          "0.0.0.0:" +:+ port]))), h').
Proof.
  intros Hlr Hsrc Hc Hs port.
  assert (Hthis : serverMiddleware this opts
                  = Addon (_config this)
                      (Some (LiveReload None (opt_liveReloadHost opts)
                               (opt_liveReloadPort opts) (opt_ssl opts))))
    by (unfold serverMiddleware; by rewrite Hlr).
  destruct (headerPolicy_spec (serverMiddleware this opts) opts h o0 c s)
    as (h' & Hrun & _ & _ & _ & Ho); [by rewrite Hthis | done..|].
  eexists _, h'. split; [exact Hrun|].
  erewrite run_getProperty by (rewrite Ho; apply lookup_insert_eq).
  unfold headerObject.
  rewrite get_reportObject_script, get_nonce_liveReload.
  by rewrite Hthis.
Qed.

Lemma liveReloadHost_dropped_witness :
  let opts := Options true (Some "example.com") 35729 false None 4200 in
  fst ((p ← headerPolicy (serverMiddleware (report_only_addon 0) opts) opts;
        getProperty p "script-src") store_connect_script)
  = Normal (VString "'self' 'nonce-abcdefg' localhost:35729 0.0.0.0:35729").
Proof.
  intros opts.
  destruct (liveReloadHost_dropped (report_only_addon 0) opts
              store_connect_script
              [("connect-src", VArray 0); ("script-src", VArray 1)]
              ["'self'"] ["'self'"])
    as (p & h' & Hrun & Hget); [reflexivity..|].
  rewrite run_bind, Hrun, Hget. reflexivity.
Defined.

(** ** More on [contentFor] *)

(** X10: [contentFor] gives a tag only for the [head] of an enabled addon
    that delivers by meta tag, and the tag is then the [meta] element for
    [Content-Security-Policy], never the report-only name, around what the
    serializer makes of the policy object built for the build, which is not
    empty.  For a disabled addon, for a type that is neither [head] nor
    [test-body-footer], and for [head] with a delivery without [meta], it
    returns nothing and leaves the store, the console and the warnings as
    they were. *)
Theorem contentFor_tag_only_for_head_meta
    (buildPolicyString : gmap loc (list string) -> object -> string)
    this type environment h :
  (forall tag h',
     contentFor buildPolicyString this type environment h
       = (Normal (Some tag), h') ->
     enabled (_config this) = true /\ type = "head" /\
     In DELIVERY_META (delivery (_config this)) /\
     exists p h1 o,
       metaPolicy this environment
         (set_ui (fun u => u ++ [(reportOnlyMetaWarning,
                                   reportOnly (_config this))]) h)
         = (Normal p, h1) /\
       objects h1 !! p = Some o /\
       buildPolicyString (arrays h1) o <> "" /\
       tag = metaTag (buildPolicyString (arrays h1) o)) /\
  (enabled (_config this) = false \/
   (type <> "head" /\ type <> "test-body-footer") \/
   (type = "head" /\ ~ In DELIVERY_META (delivery (_config this))) ->
   contentFor buildPolicyString this type environment h = (Normal None, h)).
Proof.
  unfold contentFor. destruct (enabled (_config this)); cbn [negb].
  2: { split; [done|]. by intros _. }
  destruct (String.eqb_spec type "head") as [->|Htype]; cbn [andb].
  2: { split; [done|]. by intros _. }
  destruct (existsb _ _) eqn:Hex.
  2: { split; [done|]. by intros _. }
  assert (Hmeta : In DELIVERY_META (delivery (_config this))).
  { apply existsb_exists in Hex as (d & Hin & Hd).
    by apply String.eqb_eq in Hd as <-. }
  split; [|by intros [?|[[? ?]|[? ?]]]].
  intros tag h'. rewrite run_bind. unfold writeWarnLine at 1.
  rewrite run_bind.
  destruct (metaPolicy this environment _) as [[p|e] h1] eqn:Hrun; [|done].
  rewrite run_bind.
  destruct (objects h1 !! p) as [o|] eqn:Hp.
  2: { unfold serialize, readObject. by rewrite run_bind, Hp. }
  rewrite (run_serialize _ _ _ _ Hp), run_bind.
  unfold unsupportedDirectives.
  rewrite run_bind, (run_readObject _ _ _ Hp), run_ret.
  rewrite run_bind, forEach_console_log.
  destruct (String.eqb_spec (buildPolicyString (arrays h1) o) "")
    as [He|Hps].
  - rewrite run_bind. by unfold console_log.
  - rewrite run_ret. intros [= <- <-]. repeat split; try done.
    by exists p, h1, o.
Qed.

Lemma contentFor_tag_only_for_head_meta_witness :
  contentFor buildPolicyString_spec (report_only_addon 0) "head" "test"
    store_connect_script = (Normal None, store_connect_script) /\
  contentFor buildPolicyString_spec (meta_addon 0 None) "body" "test"
    store_connect_script = (Normal None, store_connect_script).
Proof.
  split.
  - apply (contentFor_tag_only_for_head_meta buildPolicyString_spec
             (report_only_addon 0) "head" "test" store_connect_script).
    right; right. split; [reflexivity|]. by intros [?|[]].
  - apply (contentFor_tag_only_for_head_meta buildPolicyString_spec
             (meta_addon 0 None) "body" "test" store_connect_script).
    right; left. split; discriminate.
Defined.

(** ** [calculateConfig] *)

Lemma run_newArray h a :
  newArray a h
  = (Normal (fresh (dom (arrays h))),
     set_arrays (insert (fresh (dom (arrays h))) a) h).
Proof. reflexivity. Qed.

Lemma allocated_preserved h h' props o :
  arrays_preserved h h' ->
  allocated (arrays h) props o -> allocated (arrays h') props o.
Proof.
  intros Hpres Hall. eapply Forall2_impl; [exact Hall|].
  intros kv kw (Hk & l & Hv & Hl). split; [done|].
  exists l. split; [done|]. by apply Hpres.
Qed.

Lemma arrayLiterals_spec props :
  forall h, exists o h',
    arrayLiterals props h = (Normal o, h') /\
    arrays_preserved h h' /\ objects h' = objects h /\
    console h' = console h /\ ui h' = ui h /\
    allocated (arrays h') props o.
Proof.
  induction props as [|[k a] r IH]; intros h; cbn [arrayLiterals].
  - exists [], h. rewrite run_ret. repeat split; [apply arrays_preserved_refl|].
    constructor.
  - rewrite run_bind, run_newArray.
    set (l := fresh (dom (arrays h))).
    set (h1 := set_arrays (insert l a) h).
    destruct (IH h1) as (o & h' & Hrun & Ha & Ho & Hc & Hu & Hall).
    exists ((k, VArray l) :: o), h'. rewrite run_bind, Hrun, run_ret.
    repeat split; try done.
    + eapply arrays_preserved_trans; [apply arrays_preserved_alloc | done].
    + constructor; [|done]. split; [done|]. exists l. split; [done|].
      apply Ha. apply lookup_insert_eq.
Qed.

Lemma allocated_lookup arrs props o k :
  allocated arrs props o ->
  match literalLookup props k with
  | Some a => exists l, Obj.lookup o k = Some (VArray l) /\ arrs !! l = Some a
  | None => Obj.lookup o k = None
  end.
Proof.
  induction 1 as [|[k1 a] [k2 v] props o (Hk & l & Hv & Hl) Hall IH];
    cbn [literalLookup Obj.lookup]; [done|].
  cbn in Hk, Hv, Hl. subst k2 v.
  destruct (String.eqb k1 k); [|done]. by exists l.
Qed.

Lemma forEach_setProperty p s :
  forall h o,
    objects h !! p = Some o ->
    exists h',
      forEach s (fun kv => setProperty p kv.1 kv.2) h = (Normal tt, h') /\
      updates p (assigned o s) h h'.
Proof.
  induction s as [|[k v] s IH]; intros h o Hp; cbn [forEach].
  - exists h. split; [done|]. by apply updates_refl.
  - destruct (setProperty_ok h p o k v Hp) as [Hrun Hu].
    destruct (IH _ _ (updates_lookup _ _ _ _ Hu)) as (h' & Hrun' & Hu').
    exists h'. split.
    + rewrite run_bind. cbn [fst snd]. by rewrite Hrun.
    + by eapply updates_trans.
Qed.

Lemma lookup_not_key (o : object) k :
  ~ In k (map fst o) -> Obj.lookup o k = None.
Proof.
  induction o as [|[k0 v0] r IH]; cbn; [done|]. intros Hn.
  destruct (String.eqb_spec k0 k) as [->|Hk]; [tauto|]. apply IH. tauto.
Qed.

(** After [Object.assign(target, src)] a key of [src] holds the value
    [src] gives it and any other key holds what [target] had. *)
Lemma lookup_assigned src :
  forall target k,
    NoDup (map fst src) ->
    Obj.lookup (assigned target src) k
    = match Obj.lookup src k with
      | Some v => Some v
      | None => Obj.lookup target k
      end.
Proof.
  unfold assigned.
  induction src as [|[k0 v0] r IH]; intros target k Hnd;
    cbn [fold_left Obj.lookup]; [done|].
  cbn in Hnd. apply NoDup_cons in Hnd as [Hk0 Hnd].
  rewrite IH by done. cbn [fst snd]. rewrite ObjFacts.lookup_set.
  destruct (String.eqb_spec k0 k) as [->|Hk]; [|done].
  rewrite lookup_not_key; [done|]. by rewrite <- list_elem_of_In.
Qed.

Lemma run_Object_assign_into h target src t s :
  objects h !! target = Some t ->
  objects h !! src = Some s ->
  exists h',
    Object_assign_into target src h = (Normal tt, h') /\
    updates target (assigned t s) h h'.
Proof.
  intros Ht Hs. unfold Object_assign_into.
  rewrite run_bind, (run_readObject _ _ _ Hs).
  by apply forEach_setProperty.
Qed.

(** The policy object [calculateConfig] builds, [o] being the default
    policy as allocated and [legacy] the legacy policy, empty when there is
    none. *)
Lemma calculateConfig_spec environment own run h legacy :
  sourceObject h (contentSecurityPolicy run) = Some legacy ->
  let p := fresh (dom (objects h)) in
  exists cfg o h',
    calculateConfig environment own run h = (Normal cfg, h') /\
    policy cfg = default (Some p) (own_policy own) /\
    arrays_preserved h h' /\ console h' = console h /\
    allocated (arrays h') defaultPolicy o /\
    objects h' =
      <[p := assigned
               (if String.eqb environment "test"
                then Obj.set o "frame-src" (VString CSP_SELF) else o)
               legacy]> (objects h).
Proof.
  intros Hleg p. unfold calculateConfig.
  destruct (arrayLiterals_spec defaultPolicy h)
    as (o & h1 & Hrun1 & Ha1 & Ho1 & Hc1 & _ & Hall1).
  rewrite run_bind, Hrun1, run_bind. unfold newObject at 1.
  rewrite Ho1. fold p.
  set (h2 := set_objects (insert p o) h1).
  assert (Hp2 : objects h2 !! p = Some o) by apply lookup_insert_eq.
  set (base := if String.eqb environment "test"
               then Obj.set o "frame-src" (VString CSP_SELF) else o).
  assert (Hstep3 : exists h3,
    (if String.eqb environment "test"
     then setProperty p "frame-src" (VString CSP_SELF)
     else mret tt) h2 = (Normal tt, h3) /\ updates p base h2 h3).
  { unfold base. destruct (String.eqb environment "test").
    - eexists. apply (setProperty_ok h2 p o _ _ Hp2).
    - exists h2. split; [done|]. by apply updates_refl. }
  destruct Hstep3 as (h3 & Hrun3 & Hu3).
  rewrite run_bind, Hrun3, run_bind. unfold writeWarnLine at 1.
  set (hw := set_ui _ h3).
  assert (Hpw : objects hw !! p = Some base)
    by apply (updates_lookup _ _ _ _ Hu3).
  assert (Hfresh : objects h !! p = None) by apply not_elem_of_dom, is_fresh.
  assert (Hstep4 : exists h4,
    match contentSecurityPolicy run with
    | Some src => Object_assign_into p src
    | None => mret tt
    end hw = (Normal tt, h4) /\ updates p (assigned base legacy) hw h4).
  { destruct (contentSecurityPolicy run) as [src|]; cbn in Hleg.
    - apply run_Object_assign_into; [done|].
      destruct Hu3 as (_ & _ & _ & Ho3). cbn. rewrite Ho3. cbn.
      assert (src <> p) by (intros ->; congruence).
      by rewrite !lookup_insert_ne, Ho1.
    - injection Hleg as <-. exists hw. split; [done|]. by apply updates_refl. }
  destruct Hstep4 as (h4 & Hrun4 & Ha4 & Hc4 & _ & Ho4).
  destruct Hu3 as (Ha3 & Hc3 & _ & Ho3).
  rewrite run_bind, Hrun4, run_ret.
  eexists _, o, h4. split; [reflexivity|]. cbn [policy].
  split; [done|]. split; [|split; [|split]].
  - eapply arrays_preserved_trans; [exact Ha1|].
    eapply arrays_preserved_trans; [|exact Ha4].
    intros l a Hl. by apply Ha3.
  - rewrite Hc4. cbn. by rewrite Hc3.
  - eapply allocated_preserved; [|exact Hall1].
    eapply arrays_preserved_trans; [|exact Ha4].
    intros l a Hl. by apply Ha3.
  - rewrite Ho4. cbn. rewrite Ho3. cbn. by rewrite Ho1, !insert_insert_eq.
Qed.

Lemma lookup_merged arrs environment o legacy k :
  allocated arrs defaultPolicy o ->
  NoDup (map fst legacy) ->
  let merged := assigned (if String.eqb environment "test"
                          then Obj.set o "frame-src" (VString CSP_SELF)
                          else o) legacy in
  match Obj.lookup legacy k with
  | Some v => Obj.lookup merged k = Some v
  | None =>
      if String.eqb k "frame-src" && String.eqb environment "test"
      then Obj.lookup merged k = Some (VString "'self'")
      else match literalLookup defaultPolicy k with
           | Some a =>
               exists l, Obj.lookup merged k = Some (VArray l) /\
                         arrs !! l = Some a
           | None => Obj.lookup merged k = None
           end
  end.
Proof.
  intros Hall Hnd merged. unfold merged. rewrite lookup_assigned by done.
  destruct (Obj.lookup legacy k); [done|].
  pose proof (allocated_lookup arrs defaultPolicy o k Hall) as Hk.
  rewrite (String.eqb_sym k "frame-src").
  destruct (String.eqb environment "test"); cbn [andb].
  - rewrite ObjFacts.lookup_set.
    by destruct (String.eqb "frame-src" k).
  - by rewrite andb_false_r.
Qed.

(** X12: the legacy policy is merged into the default policy, not put in
    its place: in the policy [calculateConfig] builds, a directive of the
    legacy policy holds the very value the legacy policy gives it, and any
    other directive holds its default, a new array with ['none'] for
    [default-src] and with ['self'] for the six other defaults, the string
    ['self'] for [frame-src] in the test environment, and nothing else.  A
    policy in the addon's own configuration replaces all of that. *)
Theorem calculateConfig_policy environment own run h legacy :
  sourceObject h (contentSecurityPolicy run) = Some legacy ->
  NoDup (map fst legacy) ->
  exists cfg h',
    calculateConfig environment own run h = (Normal cfg, h') /\
    match own_policy own with
    | Some q => policy cfg = q
    | None =>
        exists p o,
          policy cfg = Some p /\ objects h !! p = None /\
          objects h' !! p = Some o /\
          forall k,
            match Obj.lookup legacy k with
            | Some v => Obj.lookup o k = Some v
            | None =>
                if String.eqb k "frame-src" && String.eqb environment "test"
                then Obj.lookup o k = Some (VString "'self'")
                else match literalLookup defaultPolicy k with
                     | Some a =>
                         exists l, Obj.lookup o k = Some (VArray l) /\
                                   arrays h' !! l = Some a
                     | None => Obj.lookup o k = None
                     end
            end
    end.
Proof.
  intros Hleg Hnd.
  destruct (calculateConfig_spec environment own run h legacy Hleg)
    as (cfg & o & h' & Hrun & Hpol & _ & _ & Hall & Hobj).
  exists cfg, h'. split; [done|].
  destruct (own_policy own) as [q|]; cbn in Hpol; [done|].
  eexists _, _. split; [exact Hpol|].
  split; [apply not_elem_of_dom, is_fresh|].
  split; [rewrite Hobj; apply lookup_insert_eq|].
  intros k. by apply lookup_merged.
Qed.

Lemma calculateConfig_policy_witness :
  let run := calculateConfig "test" (OwnConfig None None None None)
               (RunConfig (Some 0) false None) store_legacy in
  exists cfg p o,
    fst run = Normal cfg /\ policy cfg = Some p /\
    objects (snd run) !! p = Some o /\
    Obj.lookup o "img-src" = Some (VArray 0) /\
    Obj.lookup o "script-src" = Some (VString "'self' cdn.example") /\
    Obj.lookup o "frame-src" = Some (VString "'self'") /\
    (exists l, Obj.lookup o "default-src" = Some (VArray l) /\
               arrays (snd run) !! l = Some ["'none'"]).
Proof.
  intros run.
  destruct (calculateConfig_policy "test" (OwnConfig None None None None)
              (RunConfig (Some 0) false None) store_legacy
              [("img-src", VArray 0);
               ("script-src", VString "'self' cdn.example")])
    as (cfg & h' & Hrun & p & o & Hpol & _ & Ho & Hk).
  { reflexivity. }
  { cbn. apply NoDup_cons. split; [|apply NoDup_singleton].
    by intros [=]%list_elem_of_singleton. }
  exists cfg, p, o. subst run. rewrite Hrun. cbn [fst snd].
  split; [reflexivity|]. split; [exact Hpol|]. split; [exact Ho|].
  split; [exact (Hk "img-src")|]. split; [exact (Hk "script-src")|].
  split; [exact (Hk "frame-src") | exact (Hk "default-src")].
Defined.

Lemma on_new_object_preserved {A} (o : object) (k : loc -> M A) :
  (forall p, preserves (frame p) (k p)) ->
  preserves preserved (newObject o ≫= k).
Proof.
  intros Hk h. rewrite run_bind. unfold newObject at 1.
  set (p := fresh (dom (objects h))).
  destruct (Hk p (set_objects (insert p o) h)) as [Ha Ho]. split.
  - intros l a Hl. by apply Ha.
  - intros q o' Hq.
    assert (q <> p) by (intros ->; by eapply fresh_object_ne).
    apply Ho; [done|]. cbn. by rewrite lookup_insert_ne.
Qed.

Lemma arrayLiterals_preserved props : preserves preserved (arrayLiterals props).
Proof.
  intros h.
  destruct (arrayLiterals_spec props h) as (o & h' & -> & Ha & Ho & _).
  split; [done|]. intros q o'. cbn [snd]. by rewrite Ho.
Qed.

Lemma Object_assign_into_frame p src :
  preserves (frame p) (Object_assign_into p src).
Proof.
  apply preserves_bind; [apply _ | |].
  - intros h. apply preserved_frame, heap_unchanged_preserved,
      readObject_unchanged.
  - intros s. apply preserves_forEach; [apply _|]. intros kv.
    apply setProperty_frame.
Qed.

(** X13: [calculateConfig] builds its policy in a new object and changes
    nothing that is there: however it ends, every object the store held,
    the legacy policy and the policy of the own configuration among them,
    has its original properties and every array its original elements. *)
Theorem calculateConfig_preserved environment own run h :
  preserved h (snd (calculateConfig environment own run h)).
Proof.
  revert h. change (preserves preserved (calculateConfig environment own run)).
  apply preserves_bind; [apply _ | apply arrayLiterals_preserved |].
  intros props. apply on_new_object_preserved. intros p.
  apply preserves_bind; [apply _ | |]; [|intros _].
  { destruct (String.eqb environment "test");
      [apply setProperty_frame | apply preserves_ret, _]. }
  apply preserves_bind; [apply _ | |]; [|intros _].
  { intros h. apply preserved_frame, heap_unchanged_preserved,
      writeWarnLine_unchanged. }
  apply preserves_bind; [apply _ | |]; [|intros _; apply preserves_ret, _].
  destruct (contentSecurityPolicy run);
    [apply Object_assign_into_frame | apply preserves_ret, _].
Qed.

Lemma sourceBase_default arrs (o : object) k a :
  (exists l, Obj.lookup o k = Some (VArray l) /\ arrs !! l = Some a) ->
  a <> [] ->
  sourceBase arrs o k = Normal a.
Proof.
  intros (l & Hk & Hl) Ha. unfold sourceBase, Obj.get. rewrite Hk. cbn.
  rewrite Hl. by destruct a.
Qed.

(** X14: with the policy [calculateConfig] builds when the own
    configuration has none and the legacy policy, if any, says nothing on
    [script-src] and [connect-src], the request handler never throws while
    it builds the policy, whatever the environment, the options and the
    live-reload settings, and [script-src] comes out as ['self'], the nonce
    and the live-reload hosts. *)
Theorem default_policy_served environment own run h legacy lr opts :
  sourceObject h (contentSecurityPolicy run) = Some legacy ->
  NoDup (map fst legacy) ->
  own_policy own = None ->
  Obj.lookup legacy "script-src" = None ->
  Obj.lookup legacy "connect-src" = None ->
  exists cfg h1 p h2,
    calculateConfig environment own run h = (Normal cfg, h1) /\
    headerPolicy (Addon cfg lr) opts h1 = (Normal p, h2) /\
    getProperty p "script-src" h2
      = (Normal (VString (Str.join " "
                   (["'self'"; "'nonce-abcdefg'"]
                    ++ liveReloadScripts (Addon cfg lr)))), h2).
Proof.
  intros Hleg Hnd Hown Hs Hc.
  destruct (calculateConfig_spec environment own run h legacy Hleg)
    as (cfg & o & h1 & Hrun & Hpol & _ & _ & Hall & Hobj).
  rewrite Hown in Hpol. cbn in Hpol.
  set (merged := assigned _ legacy) in Hobj.
  pose proof (lookup_merged (arrays h1) environment o legacy "script-src"
                Hall Hnd) as Hks.
  pose proof (lookup_merged (arrays h1) environment o legacy "connect-src"
                Hall Hnd) as Hkc.
  cbn zeta in Hks, Hkc. fold merged in Hks, Hkc. rewrite Hs in Hks.
  rewrite Hc in Hkc. cbn in Hks, Hkc.
  destruct (headerPolicy_spec (Addon cfg lr) opts h1 merged
              ["'self'"] ["'self'"]) as (h2 & Hrun2 & _ & _ & _ & Ho2).
  - cbn. rewrite Hpol. cbn. rewrite Hobj. apply lookup_insert_eq.
  - by apply sourceBase_default.
  - by apply sourceBase_default.
  - eexists cfg, h1, _, h2. split; [done|]. split; [exact Hrun2|].
    erewrite run_getProperty by (rewrite Ho2; apply lookup_insert_eq).
    unfold headerObject.
    by rewrite get_reportObject_script, get_nonce_liveReload.
Qed.

Lemma default_policy_served_witness :
  let h1 := snd (calculateConfig "development" (OwnConfig None None None None)
                   (RunConfig None false None) (Store ∅ ∅ [] [])) in
  exists cfg,
    fst (calculateConfig "development" (OwnConfig None None None None)
           (RunConfig None false None) (Store ∅ ∅ [] [])) = Normal cfg /\
    fst ((p ← headerPolicy (Addon cfg None) local_options;
          getProperty p "script-src") h1)
    = Normal (VString "'self' 'nonce-abcdefg'").
Proof.
  intros h1.
  destruct (default_policy_served "development"
              (OwnConfig None None None None) (RunConfig None false None)
              (Store ∅ ∅ [] []) [] None local_options)
    as (cfg & h1' & p & h2 & Hrun & Hrun2 & Hget);
    [reflexivity | constructor | reflexivity..|].
  exists cfg. subst h1. rewrite Hrun. cbn [fst snd].
  split; [reflexivity|]. by rewrite run_bind, Hrun2, Hget.
Defined.

(** ** More on [unsupportedDirectives] and [allowLiveReload] *)

Lemma has_keys (o : object) k : Obj.has o k = true <-> In k (map fst o).
Proof.
  unfold Obj.has. induction o as [|[k0 v0] r IH]; cbn; [by split|].
  destruct (String.eqb_spec k0 k) as [->|Hk]; [by split; auto|].
  rewrite IH. split; [auto | by intros [?|?]].
Qed.

(** X9: [unsupportedDirectives] goes by the keys of the policy, not by
    their values: it returns, in the order [report-uri], [frame-ancestors],
    [sandbox] and each at most once, exactly the names among these that are
    keys of the object, also when the value is [null], [undefined] or an
    empty list, and it changes nothing. *)
Theorem unsupportedDirectives_by_key h p o :
  objects h !! p = Some o ->
  exists names,
    unsupportedDirectives p h = (Normal names, h) /\
    (forall name,
       In name names <->
       In name [CSP_REPORT_URI; CSP_FRAME_ANCESTORS; CSP_SANDBOX] /\
       In name (map fst o)) /\
    sublist names [CSP_REPORT_URI; CSP_FRAME_ANCESTORS; CSP_SANDBOX] /\
    forall k v, In k (map fst o) ->
      fst (unsupportedDirectives p
             (set_objects (insert p (Obj.set o k v)) h)) = Normal names.
Proof.
  intros Hp. eexists. split; [|split; [|split]].
  - unfold unsupportedDirectives.
    by rewrite run_bind, (run_readObject _ _ _ Hp), run_ret.
  - intros name. rewrite filter_In, has_keys. done.
  - unfold META_UNSUPPORTED_DIRECTIVES. cbn [List.filter].
    destruct (Obj.has o CSP_REPORT_URI), (Obj.has o CSP_FRAME_ANCESTORS),
      (Obj.has o CSP_SANDBOX); by repeat constructor.
  - intros k v Hk. unfold unsupportedDirectives.
    rewrite run_bind, (run_readObject _ _ (Obj.set o k v))
      by apply lookup_insert_eq.
    rewrite run_ret. cbn [fst]. f_equal. apply filter_ext. intros name.
    apply eq_true_iff_eq. rewrite !has_keys, keys_set.
    by apply has_keys in Hk as ->.
Qed.

Lemma unsupportedDirectives_by_key_witness :
  exists names,
    fst (unsupportedDirectives 0
           (Store ∅ {[ 0 := [("sandbox", VNull);
                             ("default-src", VString "'none'");
                             ("report-uri", VUndefined)] ]} [] []))
      = Normal names /\
    In "sandbox" names /\ In "report-uri" names /\
    ~ In "frame-ancestors" names.
Proof.
  destruct (unsupportedDirectives_by_key
              (Store ∅ {[ 0 := [("sandbox", VNull);
                                ("default-src", VString "'none'");
                                ("report-uri", VUndefined)] ]} [] []) 0
              [("sandbox", VNull); ("default-src", VString "'none'");
               ("report-uri", VUndefined)])
    as (names & Hrun & Hin & _); [reflexivity|].
  exists names. split; [by rewrite Hrun|].
  split; [apply Hin; cbn; tauto|]. split; [apply Hin; cbn; tauto|].
  intros [_ Hk]%Hin. cbn in Hk.
  destruct Hk as [Hk|[Hk|[Hk|[]]]]; discriminate Hk.
Defined.

Lemma normalize_thrown_mono h h' v e :
  arrays_preserved h h' -> e <> BadReference ->
  normalize (arrays h) v = Thrown e -> normalize (arrays h') v = Thrown e.
Proof.
  intros Hpres He. destruct v as [| |?|?|s|l|]; cbn; try done.
  destruct (arrays h !! l) as [a|] eqn:Hl; [done|]. by intros [= <-].
Qed.

Lemma fallbackBase_thrown_mono h h' d e :
  arrays_preserved h h' -> e <> BadReference ->
  fallbackBase (arrays h) d = Thrown e -> fallbackBase (arrays h') d = Thrown e.
Proof.
  intros Hpres He. destruct d as [| |?|?|s|l|]; cbn; try done.
  destruct (arrays h !! l) as [a|] eqn:Hl; [done|]. by intros [= <-].
Qed.

Lemma sourceBase_thrown_mono h h' o name e :
  arrays_preserved h h' -> e <> BadReference ->
  sourceBase (arrays h) o name = Thrown e ->
  sourceBase (arrays h') o name = Thrown e.
Proof.
  intros Hpres He. unfold sourceBase.
  destruct (normalize (arrays h) (Obj.get o name)) as [a|e'] eqn:Hn.
  - rewrite (normalize_mono _ _ _ _ Hpres Hn).
    destruct a; [by apply fallbackBase_thrown_mono | done].
  - intros [= ->]. by rewrite (normalize_thrown_mono _ _ _ _ Hpres He Hn).
Qed.

(** X11: the live-reload step appends to [connect-src] first.  When
    [connect-src] cannot be appended to, the step throws and the policy
    object is as it was.  When [connect-src] can and [script-src] cannot,
    the step throws after [connect-src] has got the websocket origin of
    [localhost]: the object is left half updated. *)
Theorem allowLiveReload_throws h p o cfg e :
  objects h !! p = Some o ->
  e <> BadReference ->
  let origin := (if lr_ssl cfg then "wss://" else "ws://") +:+
                ("localhost" +:+ ":" +:+ Str.of_N (lr_port cfg)) in
  (sourceBase (arrays h) o "connect-src" = Thrown e ->
   exists h', allowLiveReload p cfg h = (Thrown e, h') /\
              objects h' = objects h) /\
  (forall c,
     sourceBase (arrays h) o "connect-src" = Normal c ->
     sourceBase (arrays h) o "script-src" = Thrown e ->
     exists h', allowLiveReload p cfg h = (Thrown e, h') /\
       objects h' !! p
       = Some (Obj.set o "connect-src"
                 (VString (Str.join " " (c ++ [origin]))))).
Proof.
  intros Hp He origin. unfold allowLiveReload, liveReloadHosts.
  cbn [forEach]. split.
  - intros Hc.
    destruct (appendSourceList_throws h p o "connect-src" origin e Hp Hc)
      as (h' & Hrun & _ & Ho).
    exists h'. split; [|done]. rewrite !run_bind. fold origin. by rewrite Hrun.
  - intros c Hc Hs.
    destruct (appendSourceList_ok h p o "connect-src" origin c Hp Hc)
      as (h1 & Hrun1 & Hu1).
    pose proof (updates_lookup _ _ _ _ Hu1) as Hp1.
    destruct (appendSourceList_throws h1 p _ "script-src"
                ("localhost" +:+ ":" +:+ Str.of_N (lr_port cfg)) e Hp1)
      as (h2 & Hrun2 & _ & Ho2).
    { rewrite sourceBase_set_other by done.
      eapply sourceBase_thrown_mono; [apply Hu1 | done..]. }
    exists h2. split; [|by rewrite Ho2].
    rewrite !run_bind. fold origin. by rewrite Hrun1, Hrun2.
Qed.

Lemma allowLiveReload_throws_witness :
  let h := Store {[ 0 := ["'self'"] ]}
             {[ 0 := [("connect-src", VArray 0); ("script-src", VNumber 1)] ]}
             [] [] in
  exists h',
    allowLiveReload 0 (LiveReload None None 4200 false) h
      = (Thrown UnknownSourceListValue, h') /\
    objects h' !! 0
    = Some [("connect-src", VString "'self' ws://localhost:4200");
            ("script-src", VNumber 1)].
Proof.
  intros h.
  destruct (allowLiveReload_throws h 0
              [("connect-src", VArray 0); ("script-src", VNumber 1)]
              (LiveReload None None 4200 false) UnknownSourceListValue)
    as [_ Hhalf]; [reflexivity | discriminate |].
  apply (Hhalf ["'self'"]); reflexivity.
Defined.
